(** * np.py: a shallow embedding

    np.py creates small CMake projects and re-synchronises the SRCS and
    HDRS lists of an existing CMakeLists.txt with the files found under
    [src] and [include].  This development embeds the functions of
    np.py as Rocq functions and proves properties of them.

    Modelling conventions.
    - A Python [str] is a [string].  Names and the contents of files
      are ASCII: what Python does with other characters (decoding,
      Unicode white space and letter case) is not modelled.
    - A Python exception is a value of [exn]; a function that can raise
      returns [result].
    - Mutable objects ([self], the line buffer, the scan variables of
      the update loop) are passed explicitly as state.
    - A file holds a text.  np.py opens files in text mode: what is
      read goes through Python's universal newlines
      ([PyStr.readlines]); what is written is stored as it is, the line
      separator of the platform being [\n].
    - The working directory is a map from paths to what is found
      there; the order in which [os.walk] lists a directory is not
      determined by its content and is given with the world.
    - Every directory can be read and written, and memory is not
      bounded. *)

From Stdlib Require Import ZArith Ascii String List Bool Lia Permutation.
From stdpp Require Import base strings list gmap.
Import ListNotations.

#[local] Open Scope Z_scope.
#[local] Open Scope nat_scope.

(** ** Exceptions and results *)

(** The exceptions np.py can run into.  The two [ValueError]s carry the
    text Python puts in the message: the offending value. *)
Inductive exn : Type :=
| ValueError_truth (value : string)     (* strtobool: invalid truth value *)
| ValueError_int (value : string)       (* int(): invalid literal *)
| TypeError_append                      (* list.append() without argument *)
| OverflowError                         (* Python int too large to convert to C int *)
| UnboundLocalError (var : string)
| FileNotFoundError (path : string)
| FileExistsError (path : string)
| NotADirectoryError (path : string)
| IsADirectoryError (path : string).

Inductive result (A : Type) : Type :=
| Ok (a : A)
| Raise (e : exn).
Arguments Ok {A} a.
Arguments Raise {A} e.

Definition is_ok {A} (r : result A) : bool :=
  match r with Ok _ => true | Raise _ => false end.

Definition rbind {A B} (r : result A) (k : A -> result B) : result B :=
  match r with
  | Ok a => k a
  | Raise e => Raise e
  end.

(** A loop that collects what [f] gives for each element, in order, and
    ends at the first exception. *)
Fixpoint for_each {A B} (f : A -> result B) (l : list A) : result (list B) :=
  match l with
  | [] => Ok []
  | a :: rest =>
      rbind (f a) (fun b => rbind (for_each f rest) (fun bs => Ok (b :: bs)))
  end.

(** ** Python string primitives *)

Module PyStr.

Definition tab : ascii := ascii_of_nat 9.
Definition newline : ascii := ascii_of_nat 10.
Definition carriage_return : ascii := ascii_of_nat 13.
Definition space : ascii := " "%char.
Definition backslash : ascii := ascii_of_nat 92.
Definition slash : ascii := "/"%char.

Definition str1 (c : ascii) : string := String c EmptyString.

(** [' ' * n] *)
Fixpoint spaces (n : nat) : string :=
  match n with
  | O => EmptyString
  | S n' => String space (spaces n')
  end.

(** [s.startswith(p)] *)
Definition startswith (p s : string) : bool := String.prefix p s.

(** [w in s] for strings: [w] occurs as a substring of [s]. *)
Fixpoint contains (w s : string) : bool :=
  String.prefix w s ||
  match s with
  | EmptyString => false
  | String _ s' => contains w s'
  end.

Fixpoint drop (n : nat) (s : string) : string :=
  match n, s with
  | O, _ => s
  | S _, EmptyString => EmptyString
  | S n', String _ s' => drop n' s'
  end.

(** [s.endswith(suf)] *)
Definition endswith (suf s : string) : bool :=
  (String.length suf <=? String.length s)
  && String.eqb (drop (String.length s - String.length suf) s) suf.

(** [s.endswith(t)] for a tuple [t] of suffixes. *)
Definition endswith_any (sufs : list string) (s : string) : bool :=
  existsb (fun suf => endswith suf s) sufs.

(** ASCII white space as [str.isspace] sees it. *)
Definition isspace (c : ascii) : bool :=
  let n := nat_of_ascii c in
  ((9 <=? n) && (n <=? 13)) || ((28 <=? n) && (n <=? 32)).

Fixpoint lstrip (s : string) : string :=
  match s with
  | EmptyString => EmptyString
  | String c s' => if isspace c then lstrip s' else s
  end.

Fixpoint rev_onto (s acc : string) : string :=
  match s with
  | EmptyString => acc
  | String c s' => rev_onto s' (String c acc)
  end.

Definition rev (s : string) : string := rev_onto s EmptyString.

Definition rstrip (s : string) : string := rev (lstrip (rev s)).

(** [s.strip()] *)
Definition strip (s : string) : string := rstrip (lstrip s).

Definition lower_char (c : ascii) : ascii :=
  let n := nat_of_ascii c in
  if (65 <=? n) && (n <=? 90) then ascii_of_nat (n + 32) else c.

(** [s.lower()] *)
Fixpoint lower (s : string) : string :=
  match s with
  | EmptyString => EmptyString
  | String c s' => String (lower_char c) (lower s')
  end.

(** [s.split(c)] for a one-character separator: never empty. *)
Fixpoint split (c : ascii) (s : string) : list string :=
  match s with
  | EmptyString => [EmptyString]
  | String a s' =>
      if Ascii.eqb a c then EmptyString :: split c s'
      else match split c s' with
           | h :: t => String a h :: t
           | [] => [str1 a]
           end
  end.

(** [s.replace(old, new)] for a one-character [old]. *)
Fixpoint replace_char (old new : ascii) (s : string) : string :=
  match s with
  | EmptyString => EmptyString
  | String a s' =>
      String (if Ascii.eqb a old then new else a) (replace_char old new s')
  end.

(** [s.replace(old, new)] for a non-empty [old]: occurrences are
    replaced from the left and do not overlap.  [skip] counts the
    characters of a matched occurrence still to be passed over. *)
Fixpoint replace_from (old new : string) (skip : nat) (s : string) : string :=
  match s with
  | EmptyString => EmptyString
  | String a s' =>
      match skip with
      | S k => replace_from old new k s'
      | O =>
          if String.prefix old s
          then new +:+ replace_from old new (String.length old - 1) s'
          else String a (replace_from old new 0 s')
      end
  end.

Definition replace (old new s : string) : string := replace_from old new 0 s.

(** The expansion [s.expandtabs(tabsize)] computes: a tab becomes the
    spaces up to the next multiple of [tabsize] (none when
    [tabsize <= 0]); the column restarts after a line break. *)
Fixpoint expandtabs_from (tabsize : Z) (col : nat) (s : string) : string :=
  match s with
  | EmptyString => EmptyString
  | String c s' =>
      if Ascii.eqb c tab then
        if (0 <? tabsize)%Z then
          let t := Z.to_nat tabsize in
          let incr := t - (col mod t) in
          spaces incr +:+ expandtabs_from tabsize (col + incr) s'
        else expandtabs_from tabsize col s'
      else if Ascii.eqb c newline || Ascii.eqb c carriage_return then
        String c (expandtabs_from tabsize 0 s')
      else String c (expandtabs_from tabsize (col + 1) s')
  end.

(** The values of a C [int]. *)
Definition c_int (z : Z) : bool :=
  ((-2147483648 <=? z) && (z <=? 2147483647))%Z.

(** [s.expandtabs(tabsize)]: the argument is converted to a C [int]
    first, which raises [OverflowError] when it does not fit. *)
Definition expandtabs (tabsize : Z) (s : string) : result string :=
  if c_int tabsize then Ok (expandtabs_from tabsize 0 s)
  else Raise OverflowError.

Definition digit_val (c : ascii) : option Z :=
  let n := nat_of_ascii c in
  if (48 <=? n) && (n <=? 57) then Some (Z.of_nat (n - 48)) else None.

(** Digits of a decimal literal; single underscores may separate
    digits.  [prev] tells whether the previous character was a digit. *)
Fixpoint parse_digits (acc : Z) (prev : bool) (s : string) : option Z :=
  match s with
  | EmptyString => if prev then Some acc else None
  | String c s' =>
      if Ascii.eqb c "_"%char then
        if prev then parse_digits acc false s' else None
      else
        match digit_val c with
        | Some d => parse_digits (10 * acc + d)%Z true s'
        | None => None
        end
  end.

(** [int(s)] on a stripped string; [None] stands for [ValueError]. *)
Definition parse_int (s : string) : option Z :=
  match s with
  | String "+"%char r => parse_digits 0%Z false r
  | String "-"%char r => Z.opp <$> parse_digits 0%Z false r
  | _ => parse_digits 0%Z false s
  end.

(** Universal newlines, the default of [io.open] in text mode: of the
    characters of the file, [\r\n] and a [\r] by itself are handed out
    as [\n]. *)
Fixpoint translate_newlines (s : string) : string :=
  match s with
  | EmptyString => EmptyString
  | String c s' =>
      if Ascii.eqb c carriage_return then
        match s' with
        | String c' s'' =>
            if Ascii.eqb c' newline then String newline (translate_newlines s'')
            else String newline (translate_newlines s')
        | EmptyString => String newline EmptyString
        end
      else String c (translate_newlines s')
  end.

(** A text cut behind each [\n]: each line keeps its line end, the last
    line may be without one. *)
Fixpoint split_lines (s : string) : list string :=
  match s with
  | EmptyString => []
  | String c s' =>
      if Ascii.eqb c newline then str1 c :: split_lines s'
      else match split_lines s' with
           | h :: t => String c h :: t
           | [] => [str1 c]
           end
  end.

(** What [readlines()] returns for a file that holds [s] and was opened
    with [io.open] in text mode. *)
Definition readlines (s : string) : list string :=
  split_lines (translate_newlines s).

(** What [writelines(lines)] writes: the lines one after the other,
    nothing added. *)
Definition writelines (lines : list string) : string :=
  fold_right String.append EmptyString lines.

End PyStr.

(** ** A small state-and-exception monad

    [SE S A] is a computation over a mutable state [S] that returns an
    [A] or raises.  The state reached when the exception is raised is
    kept: Python does not roll back assignments made before a raise. *)

Definition SE (S A : Type) : Type := S -> S * result A.

Definition se_ret {S A} (a : A) : SE S A := fun s => (s, Ok a).

Definition se_raise {S A} (e : exn) : SE S A := fun s => (s, Raise e).

Definition se_bind {S A B} (m : SE S A) (k : A -> SE S B) : SE S B :=
  fun s =>
    match m s with
    | (s', Ok a) => k a s'
    | (s', Raise e) => (s', Raise e)
    end.

Definition se_modify {S} (f : S -> S) : SE S unit := fun s => (f s, Ok tt).

Definition se_lift {S A} (r : result A) : SE S A := fun s => (s, r).

Notation "'let!' x ':=' m 'in' k" := (se_bind m (fun x => k))
  (at level 10, x name, m at level 200, k at level 200).

(** ** NPSettings *)

Module Settings.

(** The values [use_tabs] can hold: the initial [False], or the
    integer [strtobool] returns. *)
Inductive pyval : Type :=
| PyBool (b : bool)
| PyInt (z : Z).

(** Truth value of a Python object, as [not] and [if] test it. *)
Definition truthy (v : pyval) : bool :=
  match v with
  | PyBool b => b
  | PyInt z => negb (z =? 0)%Z
  end.

Record NPSettings : Type := mkSettings {
  use_tabs : pyval;
  expanded_spaces : Z
}.

(** [NPSettings.__init__] *)
Definition init : NPSettings :=
  {| use_tabs := PyBool false; expanded_spaces := 2%Z |}.

Definition in_list (s : string) (l : list string) : bool :=
  existsb (String.eqb s) l.

(** [distutils.util.strtobool] *)
Definition strtobool (val : string) : result pyval :=
  let val := PyStr.lower val in
  if in_list val ["y"; "yes"; "t"; "true"; "on"; "1"] then Ok (PyInt 1)
  else if in_list val ["n"; "no"; "f"; "false"; "off"; "0"] then Ok (PyInt 0)
  else Raise (ValueError_truth val).

(** [NPSettings.bool_check] *)
Definition bool_check (value : string) : result pyval := strtobool value.

(** [int(value)] *)
Definition py_int (value : string) : result Z :=
  match PyStr.parse_int value with
  | Some z => Ok z
  | None => Raise (ValueError_int value)
  end.

(** What [print] was called with. *)
Inductive printed : Type :=
| Print (text : string)
| PrintAt (text : string) (lineno : nat) (line : string).

(** The state [read] works on: the object [self] and standard output. *)
Record rstate : Type := mkRState {
  self : NPSettings;
  stdout : list printed
}.

Definition print (p : printed) : SE rstate unit :=
  se_modify (fun s => {| self := self s; stdout := stdout s ++ [p] |}).

Definition set_use_tabs (v : pyval) : SE rstate unit :=
  se_modify (fun s =>
    {| self := {| use_tabs := v; expanded_spaces := expanded_spaces (self s) |};
       stdout := stdout s |}).

Definition set_expanded_spaces (z : Z) : SE rstate unit :=
  se_modify (fun s =>
    {| self := {| use_tabs := use_tabs (self s); expanded_spaces := z |};
       stdout := stdout s |}).

(** The test [line.strip() and not line.strip().startswith('#')]. *)
Definition is_setting_line (line : string) : bool :=
  negb (String.eqb (PyStr.strip line) EmptyString)
  && negb (PyStr.startswith "#" (PyStr.strip line)).

(** The body of the loop of [read] for one line. *)
Definition read_line (index : nat) (line : string) : SE rstate unit :=
  if is_setting_line line then
    match PyStr.split ":"%char line with
    | [t0; t1] =>
        let key := PyStr.lower (PyStr.strip t0) in
        let value := PyStr.lower (PyStr.strip t1) in
        if String.eqb key "use_tabs" then
          let! v := se_lift (bool_check value) in set_use_tabs v
        else if String.eqb key "expanded_spaces" then
          let! z := se_lift (py_int value) in set_expanded_spaces z
        else print (PrintAt "Invalid setting found at line {}: {}" (index + 1) line)
    | _ => print (PrintAt "Invalid syntax at line {}: {}" (index + 1) line)
    end
  else se_ret tt.

(** [for index, line in enumerate(lines)], from [index] on. *)
Fixpoint read_lines (index : nat) (lines : list string) : SE rstate unit :=
  match lines with
  | [] => se_ret tt
  | line :: rest =>
      let! _ := read_line index line in read_lines (S index) rest
  end.

(** [NPSettings.read].  [np_file] is the content of the regular file
    [.np] of the working directory, [None] when there is none. *)
Definition read (np_file : option (list string)) : SE rstate unit :=
  match np_file with
  | Some lines => read_lines 0 lines
  | None => se_ret tt
  end.

End Settings.

(** ** Project initializer: make_project_folder and create_project *)

Module Init.
Import Settings.

(** What is found at a path: a directory, or a regular file and the
    characters it holds. *)
Inductive node : Type :=
| NDir
| NFile (content : string).

(** A file system is the map from the paths below the working
    directory to what is found there.  The paths are plain: names
    separated by single [/], as np.py builds them from a plain name,
    none of them empty, [.] or [..]. *)

Record istate : Type := mkIState {
  fs : gmap string node;
  out : list printed
}.

(** The directory a plain path lies in: the path up to its last [/];
    the empty string is the working directory. *)
Fixpoint parent_dir (path : string) : string :=
  match path with
  | EmptyString => EmptyString
  | String c rest =>
      if PyStr.contains "/" rest then String c (parent_dir rest)
      else EmptyString
  end.

(** The directories above [path], from the working directory down:
    for [a/b/c] these are [a] and [a/b].  [seen] is the part of the
    path already passed. *)
Fixpoint directories_from (seen path : string) : list string :=
  match path with
  | EmptyString => []
  | String c rest =>
      if Ascii.eqb c "/" then seen :: directories_from (seen +:+ "/") rest
      else directories_from (seen +:+ PyStr.str1 c) rest
  end.

Definition directories (path : string) : list string :=
  directories_from EmptyString path.

(** The system follows [path] through [dirs], the directories above
    it, and stops at the first that is no directory. *)
Fixpoint follow (m : gmap string node) (path : string) (dirs : list string)
    : result unit :=
  match dirs with
  | [] => Ok tt
  | d :: rest =>
      match m !! d with
      | Some NDir => follow m path rest
      | Some (NFile _) => Raise (NotADirectoryError path)
      | None => Raise (FileNotFoundError path)
      end
  end.

(** The directory a new entry goes into must exist and be a directory.
    An entry lies in a directory, so when the parent is a directory the
    directories above it are there; when the parent is missing, the
    error is the one of the first directory on the way that is missing
    or is a regular file. *)
Definition check_parent (m : gmap string node) (path : string) : result unit :=
  let parent := parent_dir path in
  if String.eqb parent EmptyString then Ok tt
  else match m !! parent with
       | Some NDir => Ok tt
       | Some (NFile _) => Raise (NotADirectoryError path)
       | None =>
           match follow m path (directories path) with
           | Raise e => Raise e
           | Ok _ => Raise (FileNotFoundError path)
           end
       end.

(** [os.path.exists(path)], for a plain path. *)
Definition exists_path (m : gmap string node) (path : string) : bool :=
  match m !! path with Some _ => true | None => false end.

Definition print (p : printed) : SE istate unit :=
  se_modify (fun s => {| fs := fs s; out := out s ++ [p] |}).

(** [os.mkdir(path)] *)
Definition mkdir (path : string) : SE istate unit :=
  fun s =>
    match check_parent (fs s) path with
    | Raise e => (s, Raise e)
    | Ok _ =>
        if exists_path (fs s) path then (s, Raise (FileExistsError path))
        else ({| fs := <[path := NDir]> (fs s); out := out s |}, Ok tt)
    end.

(** [io.open(path, 'w')], [write(content)], [flush()], [close()] *)
Definition write_file (path content : string) : SE istate unit :=
  fun s =>
    match check_parent (fs s) path with
    | Raise e => (s, Raise e)
    | Ok _ =>
        match fs s !! path with
        | Some NDir => (s, Raise (IsADirectoryError path))
        | _ => ({| fs := <[path := NFile content]> (fs s); out := out s |}, Ok tt)
        end
    end.

(** [make_project_folder(filepath)] *)
Definition make_project_folder (filepath : string) : SE istate bool :=
  fun s =>
    if exists_path (fs s) filepath then
      (let! _ := print (Print "File path already exists, try again. :D") in
       se_ret false) s
    else
      (let! _ := mkdir filepath in
       let! _ := mkdir (filepath +:+ "/src") in
       let! _ := mkdir (filepath +:+ "/include") in
       se_ret true) s.

(** [default_project_template] *)
Definition default_project_template : string :=
"#
# %project_name% CMakeLists.txt
#

project ( %project_name% LANGUAGES %languages% )

cmake_minimum_required( VERSION 3.18 )

set ( SRCS 
  # project sources
)
set ( HDRS
  # project headers
)

add_executable( %project_name% ${SRCS} ${HDRS} )
target_include_directories( %project_name% PRIVATE include )
".

(** The text [create_project] writes: the template with both
    placeholders replaced. *)
Definition cmake_project (name languages : string) : string :=
  PyStr.replace "%languages%" languages
    (PyStr.replace "%project_name%" name default_project_template).

(** [create_project(name, filepath, languages)]; [filepath = None]
    is the default argument.  What [make_project_folder] returns is
    not looked at. *)
Definition create_project (name : string) (filepath : option string)
    (languages : string) : SE istate unit :=
  let created_path :=
    match filepath with
    | None => name
    | Some fp => fp
    end in
  let! _ := make_project_folder created_path in
  let! _ := write_file (created_path +:+ "/CMakeLists.txt")
                       (cmake_project name languages) in
  print (Print ("Done! Use `cd " +:+ created_path +:+ "` to navigate to "
                +:+ name +:+ ".")).

End Init.

(** ** File discovery: seek_sources *)

Module Discovery.
Import Settings.

(** [language_extensions] *)
Definition language_extensions : list string :=
  [".c"; "cpp"; "cxx"; "h"; "hpp"; "hxx"].

(** A directory: its files and its named subdirectories. *)
Inductive tree : Type :=
| Dir (files : list string) (subdirs : list (string * tree)).

(** What [os.walk] yields, without the directory names: the pairs
    [(root, files)] in the order of the walk. *)
Definition walk : Type := list (string * list string).

(** [os.path.join(a, p)] with separator [sep]. *)
Definition join (sep : ascii) (a p : string) : string :=
  if PyStr.startswith (PyStr.str1 sep) p then p
  else if String.eqb a EmptyString || PyStr.endswith (PyStr.str1 sep) a
       then a +:+ p
       else a +:+ PyStr.str1 sep +:+ p.

(** [os.walk(top)], top down. *)
Fixpoint os_walk (sep : ascii) (top : string) (t : tree) : walk :=
  match t with
  | Dir files subdirs =>
      (top, files) ::
      (fix walk_subdirs (l : list (string * tree)) : walk :=
         match l with
         | [] => []
         | (name, t') :: l' =>
             os_walk sep (join sep top name) t' ++ walk_subdirs l'
         end) subdirs
  end.

(** [os.path.relpath(path, start)] on the paths [os.walk(start)]
    produces: [start] itself is ["."], a path below [start] loses the
    prefix [start] and the separator behind it, which [os.path.join]
    did not add when [start] ends with one.  Other paths do not come
    out of the walk and are returned as they are. *)
Definition relpath (sep : ascii) (path start : string) : string :=
  if String.eqb path start then "."
  else if PyStr.startswith (start +:+ PyStr.str1 sep) path
       then PyStr.drop (String.length start + 1) path
       else if PyStr.endswith (PyStr.str1 sep) start && PyStr.startswith start path
            then PyStr.drop (String.length start) path
            else path.

(** The line built for one file in the body of the loop. *)
Definition format_path (sep : ascii) (subfolder : string)
    (settings : NPSettings) (root file : string) : result string :=
  let path :=
    PyStr.str1 PyStr.tab +:+ subfolder +:+ "/" +:+
    PyStr.replace_char PyStr.backslash PyStr.slash
      (relpath sep (join sep root file) subfolder) +:+
    PyStr.str1 PyStr.newline in
  if negb (truthy (use_tabs settings))
  then PyStr.expandtabs (expanded_spaces settings) path
  else Ok path.

(** The inner loop: the lines one directory of the walk contributes. *)
Definition paths_in (sep : ascii) (subfolder : string)
    (settings : NPSettings) (entry : string * list string)
    : result (list string) :=
  let '(root, files) := entry in
  for_each (format_path sep subfolder settings root)
           (List.filter (fun file => PyStr.endswith_any language_extensions file) files).

(** The comment prepared when nothing was found. *)
Definition no_paths_comment (subfolder : string) (settings : NPSettings)
    : result string :=
  let comment :=
    PyStr.str1 PyStr.tab +:+ "# project " +:+
    (if String.eqb subfolder "src" then "sources" else "headers") in
  if negb (truthy (use_tabs settings))
  then PyStr.expandtabs (expanded_spaces settings) comment
  else Ok comment.

(** [seek_sources(subfolder, settings)]; [w] is what
    [os.walk(subfolder)] yields.  When nothing was found the comment
    is prepared, but [resulting_paths.append()] is called without it
    and raises. *)
Definition seek_sources (sep : ascii) (subfolder : string)
    (settings : NPSettings) (w : walk) : result (list string) :=
  rbind (for_each (paths_in sep subfolder settings) w) (fun found =>
  let resulting_paths := concat found in
  if length resulting_paths =? 0 then
    rbind (no_paths_comment subfolder settings) (fun _ =>
    Raise TypeError_append)
  else Ok resulting_paths).

End Discovery.

(** ** Section locator and rewriter: update_cmakelist_sources *)

Module Update.
Import Settings Init Discovery.

(** [search_data], in the order the dictionary is iterated. *)
Definition search_data : list (string * list string) :=
  [("src", ["set"; "SRCS"]); ("include", ["set"; "HDR"])].

(** The variables of the scan.  They are locals of the function, not
    of one pass: [None] is a variable not yet assigned. *)
Record scan : Type := mkScan {
  seek_end : bool;
  start_index : option nat;
  end_index : option nat
}.

(** The variables when the first pass starts. *)
Definition scan_init : scan :=
  {| seek_end := false; start_index := None; end_index := None |}.

(** [all(word in line for word in words)] *)
Definition is_marker (words : list string) (line : string) : bool :=
  forallb (fun word => PyStr.contains word line) words.

(** [line.startswith(')')] *)
Definition is_close (line : string) : bool := PyStr.startswith ")" line.

(** The body of the inner loop. *)
Definition scan_line (words : list string) (st : scan)
    (index : nat) (line : string) : scan :=
  if negb (seek_end st) then
    if is_marker words line then
      {| seek_end := true; start_index := Some (index + 1);
         end_index := end_index st |}
    else st
  else
    if is_close line then
      {| seek_end := false; start_index := start_index st;
         end_index := Some index |}
    else st.

(** [for index, line in enumerate(lines)], from [index] on. *)
Fixpoint scan_lines (words : list string) (st : scan)
    (index : nat) (lines : list string) : scan :=
  match lines with
  | [] => st
  | line :: rest => scan_lines words (scan_line words st index line) (S index) rest
  end.

(** The bounds of a slice [l[i:j]] with non-negative [i] and [j]. *)
Definition slice_bounds {A} (l : list A) (i j : nat) : nat * nat :=
  let start := Nat.min i (length l) in
  let stop := Nat.min j (length l) in
  (start, Nat.max start stop).

(** [l[i:j] = new] *)
Definition set_slice {A} (l : list A) (i j : nat) (new : list A) : list A :=
  let '(start, stop) := slice_bounds l i j in
  firstn start l ++ new ++ skipn stop l.

(** [del l[i:j]] *)
Definition del_slice {A} (l : list A) (i j : nat) : list A :=
  let '(start, stop) := slice_bounds l i j in
  firstn start l ++ skipn stop l.

(** Reading a local variable. *)
Definition load (var : string) (v : option nat) : result nat :=
  match v with
  | Some n => Ok n
  | None => Raise (UnboundLocalError var)
  end.

(** What the program works in: the path separator of the platform,
    the working directory, and what [os.walk] yields for each
    directory. *)
Record world : Type := mkWorld {
  os_sep : ascii;
  files : gmap string node;
  walk_of : string -> walk
}.

(** The lines of the settings file: [.np] is looked at when
    [os.path.exists('.np') and os.path.isfile('.np')], and then read
    with [readlines()]. *)
Definition np_file (w : world) : option (list string) :=
  match files w !! ".np" with
  | Some (NFile text) => Some (PyStr.readlines text)
  | _ => None
  end.

(** [io.open('CMakeLists.txt', 'rt')] and [readlines()]. *)
Definition open_cmake (w : world) : result (list string) :=
  match files w !! "CMakeLists.txt" with
  | Some (NFile text) => Ok (PyStr.readlines text)
  | Some NDir => Raise (IsADirectoryError "CMakeLists.txt")
  | None => Raise (FileNotFoundError "CMakeLists.txt")
  end.

(** The lines of the build file, when it can be read. *)
Definition cmake_file (w : world) : option (list string) :=
  match open_cmake w with
  | Ok lines => Some lines
  | Raise _ => None
  end.

(** [io.open('CMakeLists.txt', 'w')], [writelines(lines)], [flush()],
    [close()]. *)
Definition write_cmake (w : world) (lines : list string) : world :=
  {| os_sep := os_sep w;
     files := <["CMakeLists.txt" := NFile (PyStr.writelines lines)]> (files w);
     walk_of := walk_of w |}.

(** One round of the outer loop, for the entry [update_section] of
    [search_data]: scan, discover, delete, insert. *)
Definition update_pass (w : world) (settings : NPSettings)
    (st : list string * scan) (entry : string * list string)
    : result (list string * scan) :=
  let '(lines, sc) := st in
  let '(update_section, words) := entry in
  let sc := scan_lines words sc 0 lines in
  rbind (seek_sources (os_sep w) update_section settings (walk_of w update_section))
    (fun new_files =>
  rbind (load "start_index" (start_index sc)) (fun start =>
  rbind (load "end_index" (end_index sc)) (fun stop =>
  let lines := del_slice lines start stop in
  let lines := set_slice lines start 0 new_files in
  Ok (lines, sc)))).

(** [for update_section in search_data] *)
Fixpoint update_passes (w : world) (settings : NPSettings)
    (st : list string * scan) (entries : list (string * list string))
    : result (list string * scan) :=
  match entries with
  | [] => Ok st
  | entry :: rest =>
      rbind (update_pass w settings st entry)
        (fun st' => update_passes w settings st' rest)
  end.

(** [update_cmakelist_sources()]: the world it leaves, what it
    printed, and whether it returned or raised. *)
Definition update_cmakelist_sources (w : world)
    : world * list printed * result unit :=
  let '(rs, r) := read (np_file w) {| self := init; stdout := [] |} in
  match r with
  | Raise e => (w, stdout rs, Raise e)
  | Ok _ =>
      let settings := self rs in
      match open_cmake w with
      | Raise e => (w, stdout rs, Raise e)
      | Ok lines =>
          match update_passes w settings (lines, scan_init) search_data with
          | Raise e => (w, stdout rs, Raise e)
          | Ok (lines', _) => (write_cmake w lines', stdout rs, Ok tt)
          end
      end
  end.

End Update.

(** ** Vocabulary of the properties *)

Definition nl : string := PyStr.str1 PyStr.newline.

Module SettingsVocabulary.
Import Settings.

(** The key and the value of a settings line: the line is neither
    blank nor a comment and has exactly two colon-separated fields. *)
Definition key_value (line : string) : option (string * string) :=
  if is_setting_line line then
    match PyStr.split ":"%char line with
    | [t0; t1] => Some (PyStr.lower (PyStr.strip t0), PyStr.lower (PyStr.strip t1))
    | _ => None
    end
  else None.

(** A line with a recognized key whose value does not parse. *)
Definition malformed_value (line : string) : bool :=
  match key_value line with
  | Some (key, value) =>
      (String.eqb key "use_tabs" && negb (is_ok (bool_check value)))
      || (String.eqb key "expanded_spaces" && negb (is_ok (py_int value)))
  | None => false
  end.

(** The exception a malformed value is reported with. *)
Definition value_error (line : string) : option exn :=
  match key_value line with
  | Some (key, value) =>
      if String.eqb key "use_tabs" then
        match bool_check value with Raise e => Some e | Ok _ => None end
      else if String.eqb key "expanded_spaces" then
        match py_int value with Raise e => Some e | Ok _ => None end
      else None
  | None => None
  end.

(** The first malformed line of a file: its index and its text. *)
Definition first_malformed_at (lines : list string) (index : nat)
    (line : string) : Prop :=
  exists pre rest,
    lines = pre ++ line :: rest
    /\ length pre = index
    /\ Forall (fun l => malformed_value l = false) pre
    /\ malformed_value line = true.

(** The exception of a failed load identifies the offending line: the
    line (its index and text) can be read off the exception. *)
Definition error_identifies_line : Prop :=
  exists locate : exn -> nat * string,
    forall lines s index line e,
      first_malformed_at lines index line ->
      snd (read (Some lines) s) = Raise e ->
      locate e = (index, line).

(** The state [read] starts from in [update_cmakelist_sources]. *)
Definition fresh : rstate := {| self := init; stdout := [] |}.

End SettingsVocabulary.

Module DiscoveryVocabulary.
Import Settings Discovery.

(** [c] occurs in [s]. *)
Fixpoint has_char (c : ascii) (s : string) : bool :=
  match s with
  | EmptyString => false
  | String a s' => Ascii.eqb a c || has_char c s'
  end.

(** [expandtabs] accepts the width of the settings, or is not called
    because tabs are kept. *)
Definition width_fits (settings : NPSettings) : bool :=
  truthy (use_tabs settings) || PyStr.c_int (expanded_spaces settings).

(** The line [format_path] returns when it returns. *)
Definition path_line (sep : ascii) (subfolder : string)
    (settings : NPSettings) (root file : string) : string :=
  let path :=
    PyStr.str1 PyStr.tab +:+ subfolder +:+ "/" +:+
    PyStr.replace_char PyStr.backslash PyStr.slash
      (relpath sep (join sep root file) subfolder) +:+
    PyStr.str1 PyStr.newline in
  if negb (truthy (use_tabs settings))
  then PyStr.expandtabs_from (expanded_spaces settings) 0 path
  else path.

(** One indentation unit: a tab, or [expanded_spaces] spaces when
    [use_tabs] is false. *)
Definition indent_unit (settings : NPSettings) : string :=
  if truthy (use_tabs settings) then PyStr.str1 PyStr.tab
  else PyStr.spaces (Z.to_nat (expanded_spaces settings)).

(** The path of [file], found in directory [root] of the walk, relative
    to [subfolder], with forward slashes. *)
Definition rel_path (sep : ascii) (subfolder root file : string) : string :=
  PyStr.replace_char PyStr.backslash PyStr.slash
    (relpath sep (join sep root file) subfolder).

(** The line the specification describes for a file. *)
Definition discovered_line (sep : ascii) (subfolder : string)
    (settings : NPSettings) (entry : string * string) : string :=
  indent_unit settings +:+ subfolder +:+ "/" +:+
  rel_path sep subfolder (fst entry) (snd entry) +:+ nl.

(** The files of a walk whose name ends with a recognized extension,
    each with the directory it was found in, in walk order. *)
Definition matching_files (w : walk) : list (string * string) :=
  flat_map (fun entry : string * list string =>
              map (pair (fst entry))
                  (List.filter (fun file => PyStr.endswith_any language_extensions file)
                          (snd entry))) w.

(** The recognized extensions written without a leading dot. *)
Definition dotless_extensions : list string :=
  List.filter (fun e => negb (PyStr.startswith "." e)) language_extensions.

(** The fallback line the specification describes. *)
Definition fallback_line (subfolder : string) (settings : NPSettings) : string :=
  indent_unit settings +:+
  (if String.eqb subfolder "src" then "# project sources" else "# project headers").

End DiscoveryVocabulary.

Module UpdateVocabulary.
Import Settings Init Discovery DiscoveryVocabulary Update.

(** The marker tokens of the two regions. *)
Definition src_words : list string := ["set"; "SRCS"].
Definition hdr_words : list string := ["set"; "HDR"].

Definition src_entry : string * list string := ("src", src_words).
Definition hdr_entry : string * list string := ("include", hdr_words).

(** No line of [ls] holds all of [words]. *)
Definition no_marker (words : list string) (ls : list string) : bool :=
  forallb (fun l => negb (is_marker words l)) ls.

(** No line of [ls] begins with a closing parenthesis. *)
Definition no_close (ls : list string) : bool :=
  forallb (fun l => negb (is_close l)) ls.

(** Following the specification's words: a line whose trimmed content
    begins with a closing parenthesis. *)
Definition is_close_trimmed (line : string) : bool :=
  PyStr.startswith ")" (PyStr.strip line).

(** Following the specification's words: the index immediately after
    the first line, from [index] on, that holds all marker tokens. *)
Fixpoint spec_start (words : list string) (index : nat) (lines : list string)
    : option nat :=
  match lines with
  | [] => None
  | line :: rest =>
      if is_marker words line then Some (index + 1)
      else spec_start words (S index) rest
  end.

(** Following the specification's words: the index of the first line,
    at or after [start], whose trimmed content begins with a closing
    parenthesis. *)
Fixpoint spec_end (start index : nat) (lines : list string) : option nat :=
  match lines with
  | [] => None
  | line :: rest =>
      if (start <=? index) && is_close_trimmed line then Some index
      else spec_end start (S index) rest
  end.

(** Following the specification's words: the lines from the start
    boundary (inclusive) to the end boundary (exclusive) are replaced
    by [new]. *)
Definition spec_rewrite (words : list string) (lines new : list string)
    : option (list string) :=
  match spec_start words 0 lines with
  | Some s =>
      match spec_end s 0 lines with
      | Some e => Some (firstn s lines ++ new ++ skipn e lines)
      | None => None
      end
  | None => None
  end.

(** A working directory for examples: [CMakeLists.txt] holds the
    lines [cmake], [src] holds the files [srcs], [include] the files
    [incs], there is no [.np]. *)
Definition demo_world (cmake : list string) (srcs incs : list string) : world :=
  {| os_sep := "/";
     files :=
       <["CMakeLists.txt" := NFile (PyStr.writelines cmake)]>
         (fold_right (fun file m => <["src/" +:+ file := NFile EmptyString]> m)
            (fold_right (fun file m => <["include/" +:+ file := NFile EmptyString]> m)
               (<["src" := NDir]> (<["include" := NDir]> ∅)) incs) srcs);
     walk_of := fun subfolder =>
       if String.eqb subfolder "src" then [("src", srcs)]
       else if String.eqb subfolder "include" then [("include", incs)]
       else [] |}.

(** A buffer with two regions: lines [A], a first region (marker
    line, body, closing line), lines [B], a second region, lines [C]. *)
Definition two_regions (A : list string)
    (m : string) (b : list string) (c : string) (B : list string)
    (m' : string) (b' : list string) (c' : string) (C : list string)
    : list string :=
  A ++ m :: b ++ c :: B ++ m' :: b' ++ c' :: C.

(** The two regions are well formed.  [ms], [bs], [cs] are the marker
    line, body and closing line of the sources region, [mh], [bh], [ch]
    those of the headers region, [A], [B], [C] the lines outside.  The
    marker lines hold their tokens, the closing lines begin with a
    closing parenthesis and no line of a body does, and no line outside
    the bodies holds the tokens of a region other than its marker
    line. *)
Definition regions_wf (A B C : list string)
    (ms : string) (bs : list string) (cs : string)
    (mh : string) (bh : list string) (ch : string) : bool :=
  is_marker src_words ms && no_close bs && is_close cs
  && is_marker hdr_words mh && no_close bh && is_close ch
  && no_marker src_words (A ++ B ++ C ++ [mh; ch])
  && no_marker hdr_words (A ++ B ++ C ++ [ms; cs]).

(** All files of a walk, each with the directory it was found in. *)
Definition files_of (w : walk) : list (string * string) :=
  flat_map (fun entry : string * list string => map (pair (fst entry)) (snd entry)) w.

(** Two walks of the same file tree: the same files, in any order. *)
Definition same_tree (w1 w2 : walk) : Prop :=
  Permutation (files_of w1) (files_of w2).

(** The buffer read from the file [create_project] writes for the
    project [demo]. *)
Definition demo_cmake : list string :=
  PyStr.readlines (Init.cmake_project "demo" "C/CXX").

(** The lines of [demo_cmake] before the sources region and after the
    headers region. *)
Definition demo_head : list string :=
  ["#" +:+ nl; "# demo CMakeLists.txt" +:+ nl; "#" +:+ nl; nl;
   "project ( demo LANGUAGES C/CXX )" +:+ nl; nl;
   "cmake_minimum_required( VERSION 3.18 )" +:+ nl; nl].

Definition demo_tail : list string :=
  [nl; "add_executable( demo ${SRCS} ${HDRS} )" +:+ nl;
   "target_include_directories( demo PRIVATE include )" +:+ nl].

(** The directories of the examples listed in another order. *)
Definition demo_walk2 (subfolder : string) : walk :=
  if String.eqb subfolder "src" then [("src", ["util.c"; "main.c"])]
  else if String.eqb subfolder "include" then [("include", ["np.h"])]
  else [].

(** The update run again in the working directory a first run left,
    with the directories listed as [walk2]: the second run reads the
    file the first run wrote. *)
Definition rerun (w : world) (walk2 : string -> walk)
    : world * list printed * result unit :=
  let '(w1, _, _) := update_cmakelist_sources w in
  update_cmakelist_sources
    {| os_sep := os_sep w1; files := files w1; walk_of := walk2 |}.

(** [l] ends with a [\n] and holds no other. *)
Fixpoint ends_at_newline (l : string) : bool :=
  match l with
  | EmptyString => false
  | String c rest =>
      if Ascii.eqb c PyStr.newline then String.eqb rest EmptyString
      else ends_at_newline rest
  end.

(** A line as [readlines] hands it out when it is not the last: it
    ends with its only [\n] and holds no [\r]. *)
Definition one_line (l : string) : bool :=
  ends_at_newline l && negb (has_char PyStr.carriage_return l).

(** No line break in [s]. *)
Definition no_break (s : string) : bool :=
  negb (has_char PyStr.newline s) && negb (has_char PyStr.carriage_return s).

(** The last line of a file may be without a line end. *)
Definition last_line (l : string) : bool :=
  one_line l
  || (negb (String.eqb l EmptyString) && negb (has_char PyStr.newline l)
      && negb (has_char PyStr.carriage_return l)).

(** A buffer of lines as [readlines] hands them out: written with
    [writelines] and read again, it is the same buffer. *)
Fixpoint read_back (lines : list string) : bool :=
  match lines with
  | [] => true
  | l :: rest =>
      match rest with
      | [] => last_line l
      | _ :: _ => one_line l && read_back rest
      end
  end.

(** The text of the build file of [w]. *)
Definition cmake_text (w : world) : option string :=
  match files w !! "CMakeLists.txt" with
  | Some (NFile text) => Some text
  | _ => None
  end.




End UpdateVocabulary.

(** ** The command line: the [__main__] block *)

Module Main.
Import Settings Init Update.

(** [supported_languages] *)
Definition supported_languages : list string := ["c"; "cxx"].

Definition upper_char (c : ascii) : ascii :=
  let n := nat_of_ascii c in
  if (97 <=? n) && (n <=? 122) then ascii_of_nat (n - 32) else c.

(** [s.upper()] *)
Fixpoint upper (s : string) : string :=
  match s with
  | EmptyString => EmptyString
  | String c s' => String (upper_char c) (upper s')
  end.

(** What [parser.parse_args()] returns. *)
Record args : Type := mkArgs {
  name : option string;
  update : bool;
  filepath : option string;
  language : option string
}.

(** What goes to standard output: a [print], or the help text of the
    argument parser. *)
Inductive console_out : Type :=
| Said (p : printed)
| Help.

(** What the program works on: the world, with the one working
    directory that [create_project] writes to and that
    [update_cmakelist_sources] reads and writes, and standard output. *)
Record mstate : Type := mkMState {
  env : world;
  console : list console_out
}.

Definition say (p : printed) : SE mstate unit :=
  se_modify (fun s => {| env := env s; console := console s ++ [Said p] |}).

Definition print_help : SE mstate unit :=
  se_modify (fun s => {| env := env s; console := console s ++ [Help] |}).

(** The call [create_project(name, filepath, languages)]. *)
Definition call_create_project (n : string) (fp : option string)
    (languages : string) : SE mstate unit :=
  fun s =>
    let '(ist, r) :=
      create_project n fp languages {| fs := files (env s); out := [] |} in
    ({| env := {| os_sep := os_sep (env s); files := fs ist;
                  walk_of := walk_of (env s) |};
        console := console s ++ map Said (out ist) |}, r).

(** The call [update_cmakelist_sources()]. *)
Definition call_update : SE mstate unit :=
  fun s =>
    let '(w, printed_lines, r) := update_cmakelist_sources (env s) in
    ({| env := w; console := console s ++ map Said printed_lines |}, r).

(** The body of [if __name__ == "__main__"], after the arguments have
    been parsed. *)
Definition main (a : args) : SE mstate unit :=
  match update a, name a with
  | false, None =>
      let! _ := say (Print "You must either set a name or update the current folder.") in
      print_help
  | false, Some n =>
      match language a with
      | None => call_create_project n (filepath a) "C/CXX"
      | Some l =>
          if in_list (PyStr.lower l) supported_languages
          then call_create_project n (filepath a) (upper l)
          else say (Print ("Language " +:+ l +:+
                           " not supported, options are 'C' or 'CXX'"))
      end
  | true, _ =>
      fun s =>
        if exists_path (files (env s)) "CMakeLists.txt" then call_update s
        else say (Print "Current directory does not have a CMakeLists.txt") s
  end.

End Main.

(** ** Vocabulary of the further properties *)

Module MoreVocabulary.
Import Settings SettingsVocabulary Discovery DiscoveryVocabulary.
Import Update UpdateVocabulary Init.

(** A report of [read] that names a line of [lines]: the number is the
    one-based number of a line and the text is that line. *)
Definition names_line (lines : list string) (p : printed) : Prop :=
  match p with
  | PrintAt _ lineno line => 1 <= lineno /\ nth_error lines (lineno - 1) = Some line
  | Print _ => False
  end.

(** The exceptions [update_cmakelist_sources] can end with. *)
Definition update_exception (e : exn) : Prop :=
  (exists v, e = ValueError_truth v)
  \/ (exists v, e = ValueError_int v)
  \/ e = FileNotFoundError "CMakeLists.txt"
  \/ e = IsADirectoryError "CMakeLists.txt"
  \/ e = OverflowError
  \/ e = TypeError_append
  \/ e = UnboundLocalError "start_index"
  \/ e = UnboundLocalError "end_index".

(** A plain path: names separated by single [/], none of them empty,
    [.] or [..], without a NUL character, and within the usual limits
    of a file system on the length of a name and of a path. *)
Definition plain_path (path : string) : bool :=
  forallb (fun name =>
             negb (String.eqb name EmptyString) && negb (String.eqb name ".")
             && negb (String.eqb name "..") && (String.length name <=? 255))
          (PyStr.split "/" path)
  && negb (has_char (ascii_of_nat 0) path)
  && (String.length path <=? 4000).

(** Nothing is found at [path] and at the two directories
    [make_project_folder] puts into it. *)
Definition fresh_target (m : gmap string node) (path : string) : Prop :=
  m !! path = None
  /\ m !! (path +:+ "/src") = None
  /\ m !! (path +:+ "/include") = None.

(** The directory tree after [make_project_folder(path)] succeeded. *)
Definition with_project_folder (m : gmap string node) (path : string)
    : gmap string node :=
  <[path +:+ "/include" := NDir]>
    (<[path +:+ "/src" := NDir]> (<[path := NDir]> m)).

(** The template with the project name [n] and the language tag [l]
    written in. *)
Definition template_text (n l : string) : string :=
  "#" +:+ nl +:+
  "# " +:+ n +:+ " CMakeLists.txt" +:+ nl +:+
  "#" +:+ nl +:+
  nl +:+
  "project ( " +:+ n +:+ " LANGUAGES " +:+ l +:+ " )" +:+ nl +:+
  nl +:+
  "cmake_minimum_required( VERSION 3.18 )" +:+ nl +:+
  nl +:+
  "set ( SRCS " +:+ nl +:+
  "  # project sources" +:+ nl +:+
  ")" +:+ nl +:+
  "set ( HDRS" +:+ nl +:+
  "  # project headers" +:+ nl +:+
  ")" +:+ nl +:+
  nl +:+
  "add_executable( " +:+ n +:+ " ${SRCS} ${HDRS} )" +:+ nl +:+
  "target_include_directories( " +:+ n +:+ " PRIVATE include )" +:+ nl.

(** What holds of the scan variables [r] after a scan of [lines] that
    started with the variables unassigned: a start boundary follows a
    marker line, an end boundary is a closing line and comes with a
    start boundary, and the two are in order when the flag is clear. *)
Definition scan_inv (words : list string) (lines : list string) (r : scan) : Prop :=
  (forall s, start_index r = Some s ->
     1 <= s <= length lines
     /\ exists m, nth_error lines (s - 1) = Some m /\ is_marker words m = true)
  /\ (forall e, end_index r = Some e ->
        e < length lines
        /\ (exists c, nth_error lines e = Some c /\ is_close c = true)
        /\ start_index r <> None)
  /\ (seek_end r = false ->
        forall s, start_index r = Some s ->
        exists e, end_index r = Some e /\ s <= e)
  /\ (seek_end r = true ->
        exists s, start_index r = Some s
        /\ forall e, end_index r = Some e -> e < s).

End MoreVocabulary.

(** * Properties *)

(** ** Settings *)

Section SettingsFacts.
Import Settings SettingsVocabulary.

Lemma read_line_cases (index : nat) (line : string) (s : rstate) :
  match value_error line with
  | Some e => read_line index line s = (s, Raise e)
  | None => exists s', read_line index line s = (s', Ok tt)
  end.
Proof.
  unfold value_error, key_value, read_line.
  destruct (is_setting_line line); [|eauto].
  destruct (PyStr.split ":" line) as [|t0 [|t1 [|t2 ts]]]; eauto.
  destruct (String.eqb _ "use_tabs").
  { unfold se_bind, se_lift. destruct (bool_check _); eauto. }
  destruct (String.eqb _ "expanded_spaces"); [|eauto].
  unfold se_bind, se_lift. destruct (py_int _); eauto.
Qed.

Lemma malformed_value_error (line : string) :
  malformed_value line = true <-> value_error line <> None.
Proof.
  unfold malformed_value, value_error.
  destruct (key_value line) as [[key value]|]; [|split; [discriminate|congruence]].
  destruct (String.eqb key "use_tabs") eqn:Hk; simpl.
  - apply String.eqb_eq in Hk. subst key. simpl.
    destruct (bool_check value); simpl; split; congruence.
  - destruct (String.eqb key "expanded_spaces"); simpl;
      [|split; [discriminate|congruence]].
    destruct (py_int value); simpl; split; congruence.
Qed.

(** The exception of a malformed line carries the value field of that
    line and nothing else. *)
Lemma value_error_carries_value (line : string) (e : exn) :
  value_error line = Some e ->
  exists key value, key_value line = Some (key, value)
    /\ (e = ValueError_truth (PyStr.lower value) \/ e = ValueError_int value).
Proof.
  unfold value_error. destruct (key_value line) as [[key value]|]; [|discriminate].
  intros H. exists key, value. split; [reflexivity|].
  destruct (String.eqb key "use_tabs").
  - unfold bool_check, strtobool in H.
    destruct (in_list _ _); [discriminate|].
    destruct (in_list _ _); [discriminate|]. left. congruence.
  - destruct (String.eqb key "expanded_spaces"); [|discriminate].
    unfold py_int in H. destruct (PyStr.parse_int value); [discriminate|].
    right. congruence.
Qed.

(** Lines before the first malformed one are processed; the load stops
    at the malformed one with the state reached so far. *)
Lemma read_lines_stops (pre : list string) :
  forall (index : nat) (bad : string) (rest : list string) (e : exn) (s s' : rstate),
    read_lines index pre s = (s', Ok tt) ->
    value_error bad = Some e ->
    read_lines index (pre ++ bad :: rest) s = (s', Raise e).
Proof.
  induction pre as [|l pre IH]; intros index bad rest e s s' Hpre Hbad; simpl in *.
  - injection Hpre as <-. unfold se_bind.
    pose proof (read_line_cases index bad s) as H. rewrite Hbad in H.
    now rewrite H.
  - unfold se_bind in *. destruct (read_line index l s) as [s1 [[]|e1]].
    + eapply IH; eauto.
    + discriminate.
Qed.

Lemma read_lines_ok (lines : list string) :
  forall (index : nat) (s : rstate),
    Forall (fun l => value_error l = None) lines ->
    exists s', read_lines index lines s = (s', Ok tt).
Proof.
  induction lines as [|l lines IH]; intros index s Hall; simpl.
  - eexists; reflexivity.
  - inversion Hall as [|? ? Hl Hrest]; subst. unfold se_bind.
    pose proof (read_line_cases index l s) as H. rewrite Hl in H.
    destruct H as [s1 ->]. apply IH, Hrest.
Qed.

(** A list with a malformed line splits at the first one. *)
Lemma first_malformed (lines : list string) :
  existsb malformed_value lines = true ->
  exists pre bad rest e,
    lines = pre ++ bad :: rest
    /\ Forall (fun l => value_error l = None) pre
    /\ value_error bad = Some e.
Proof.
  induction lines as [|l lines IH]; simpl; [discriminate|].
  intros H. destruct (value_error l) as [e|] eqn:Hl.
  - exists [], l, lines, e. repeat split; auto.
  - assert (Hm : malformed_value l = false).
    { destruct (malformed_value l) eqn:Hm; [|reflexivity].
      apply malformed_value_error in Hm. congruence. }
    rewrite Hm in H. simpl in H.
    destruct (IH H) as (pre & bad & rest & e & -> & Hpre & Hbad).
    exists (l :: pre), bad, rest, e. repeat split; auto.
Qed.

Lemma lower_char_idem (c : ascii) :
  PyStr.lower_char (PyStr.lower_char c) = PyStr.lower_char c.
Proof. destruct c as [[] [] [] [] [] [] [] []]; reflexivity. Qed.

Lemma lower_idem (v : string) : PyStr.lower (PyStr.lower v) = PyStr.lower v.
Proof.
  induction v as [|c v IH]; simpl; [reflexivity|].
  now rewrite lower_char_idem, IH.
Qed.

Lemma key_value_lower (line key value : string) :
  key_value line = Some (key, value) -> PyStr.lower value = value.
Proof.
  unfold key_value. destruct (is_setting_line line); [|discriminate].
  destruct (PyStr.split ":" line) as [|t0 [|t1 [|t2 ts]]]; try discriminate.
  intros [= _ <-]. apply lower_idem.
Qed.

(** C9, as the code has it: a settings file with a line whose key is
    [use_tabs] or [expanded_spaces] and whose value does not parse
    makes the load raise.  The exception is the [ValueError] of
    [strtobool] or [int] and carries the value field of an offending
    line of the file (stripped, in lower case): neither its number
    nor its text. *)
Theorem read_fails_on_malformed_value (lines : list string) (s : rstate) :
  existsb malformed_value lines = true ->
  exists s' e,
    read (Some lines) s = (s', Raise e)
    /\ exists line key value,
         In line lines
         /\ malformed_value line = true
         /\ key_value line = Some (key, value)
         /\ (e = ValueError_truth value \/ e = ValueError_int value).
Proof.
  intros H.
  destruct (first_malformed lines H) as (pre & bad & rest & e & -> & Hpre & Hbad).
  destruct (read_lines_ok pre 0 s Hpre) as [s' Hs'].
  exists s', e. split.
  - simpl. eapply read_lines_stops; eauto.
  - destruct (value_error_carries_value bad e Hbad) as (key & value & Hkv & He).
    exists bad, key, value. repeat split; auto.
    + apply in_elt.
    + apply malformed_value_error. congruence.
    + rewrite (key_value_lower _ _ _ Hkv) in He. exact He.
Qed.

Lemma read_fails_on_malformed_value_witness :
  exists s' e,
    read (Some ["# settings" +:+ nl; "use_tabs: maybe" +:+ nl]) fresh = (s', Raise e)
    /\ exists line key value,
         In line ["# settings" +:+ nl; "use_tabs: maybe" +:+ nl]
         /\ malformed_value line = true
         /\ key_value line = Some (key, value)
         /\ (e = ValueError_truth value \/ e = ValueError_int value).
Proof.
  apply (read_fails_on_malformed_value
           ["# settings" +:+ nl; "use_tabs: maybe" +:+ nl] fresh).
  reflexivity.
Defined.

(** C9 as stated does not hold: two files whose offending lines differ
    in number and in text fail with the same exception, so the
    exception does not identify the line. *)
Lemma error_does_not_identify_line : ~ error_identifies_line.
Proof.
  intros [locate H].
  pose proof (H ["use_tabs: maybe" +:+ nl] fresh 0 ("use_tabs: maybe" +:+ nl)
                (ValueError_truth "maybe")) as H1.
  pose proof (H ["# settings" +:+ nl; "USE_TABS : Maybe" +:+ nl] fresh 1
                ("USE_TABS : Maybe" +:+ nl) (ValueError_truth "maybe")) as H2.
  assert (E1 : locate (ValueError_truth "maybe") = (0, "use_tabs: maybe" +:+ nl)).
  { apply H1; [|reflexivity].
    exists [], []. repeat split; auto. }
  assert (E2 : locate (ValueError_truth "maybe") = (1, "USE_TABS : Maybe" +:+ nl)).
  { apply H2; [|reflexivity].
    exists ["# settings" +:+ nl], []. repeat split; auto. }
  rewrite E1 in E2. discriminate.
Qed.

(** C10: the load is not atomic.  When the lines before a malformed
    one are read without error, the load raises at the malformed line
    and the settings object is left as those earlier lines made it. *)
Theorem read_keeps_earlier_assignments
    (pre : list string) (bad : string) (rest : list string)
    (e : exn) (s s' : rstate) :
  read (Some pre) s = (s', Ok tt) ->
  value_error bad = Some e ->
  read (Some (pre ++ bad :: rest)) s = (s', Raise e).
Proof.
  simpl. intros Hpre Hbad. eapply read_lines_stops; eauto.
Qed.

Lemma read_keeps_earlier_assignments_witness :
  read (Some (["use_tabs: yes" +:+ nl; "expanded_spaces: 8" +:+ nl]
              ++ ("expanded_spaces: wide" +:+ nl) :: ["use_tabs: no" +:+ nl])) fresh
  = ({| self := {| use_tabs := PyInt 1; expanded_spaces := 8 |}; stdout := [] |},
     Raise (ValueError_int "wide")).
Proof.
  apply (read_keeps_earlier_assignments
           ["use_tabs: yes" +:+ nl; "expanded_spaces: 8" +:+ nl]
           ("expanded_spaces: wide" +:+ nl) ["use_tabs: no" +:+ nl]
           (ValueError_int "wide") fresh).
  - reflexivity.
  - reflexivity.
Defined.

End SettingsFacts.

(** ** File discovery *)

Section DiscoveryFacts.
Import Settings Discovery DiscoveryVocabulary.

Lemma has_char_app (c : ascii) (s t : string) :
  has_char c (s +:+ t) = has_char c s || has_char c t.
Proof.
  induction s as [|a s IH]; simpl; [reflexivity|].
  now rewrite IH, orb_assoc.
Qed.

Lemma expandtabs_from_no_tab (tabsize : Z) (s : string) :
  forall col, has_char PyStr.tab s = false ->
              PyStr.expandtabs_from tabsize col s = s.
Proof.
  induction s as [|a s IH]; intros col H; simpl in *; [reflexivity|].
  apply orb_false_iff in H as [Ha Hs]. rewrite Ha.
  destruct (Ascii.eqb a PyStr.newline || Ascii.eqb a PyStr.carriage_return);
    now rewrite IH.
Qed.

(** A leading tab is expanded to [tabsize] spaces (none when [tabsize]
    is not positive) when the rest of the string has no tab. *)
Lemma expandtabs_leading_tab (tabsize : Z) (s : string) :
  has_char PyStr.tab s = false ->
  PyStr.expandtabs_from tabsize 0 (PyStr.str1 PyStr.tab +:+ s)
  = PyStr.spaces (Z.to_nat tabsize) +:+ s.
Proof.
  intros H. simpl.
  destruct (0 <? tabsize)%Z eqn:Hpos.
  - apply Z.ltb_lt in Hpos.
    assert (Hmod : 0 mod Z.to_nat tabsize = 0) by (apply Nat.Div0.mod_0_l).
    rewrite Hmod, Nat.sub_0_r. now rewrite expandtabs_from_no_tab.
  - apply Z.ltb_ge in Hpos.
    assert (Hz : Z.to_nat tabsize = 0) by lia.
    rewrite Hz. simpl. now apply expandtabs_from_no_tab.
Qed.

(** [format_path] returns the line when [expandtabs] accepts the width
    and raises [OverflowError] when it does not. *)
Lemma format_path_cases (sep : ascii) (subfolder : string)
    (settings : NPSettings) (root file : string) :
  format_path sep subfolder settings root file
  = if width_fits settings
    then Ok (path_line sep subfolder settings root file)
    else Raise OverflowError.
Proof.
  unfold format_path, path_line, width_fits, PyStr.expandtabs.
  destruct (truthy (use_tabs settings)); cbn [negb orb]; [reflexivity|].
  now destruct (PyStr.c_int (expanded_spaces settings)).
Qed.

Lemma no_paths_comment_cases (subfolder : string) (settings : NPSettings) :
  is_ok (no_paths_comment subfolder settings) = width_fits settings
  /\ (width_fits settings = false ->
      no_paths_comment subfolder settings = Raise OverflowError).
Proof.
  unfold no_paths_comment, width_fits, PyStr.expandtabs.
  destruct (truthy (use_tabs settings)); cbn [negb orb is_ok]; [now split|].
  destruct (PyStr.c_int (expanded_spaces settings)); cbn [is_ok]; now split.
Qed.

Lemma path_line_discovered (sep : ascii) (subfolder : string)
    (settings : NPSettings) (root file : string) :
  truthy (use_tabs settings) = true
  \/ (has_char PyStr.tab subfolder = false
      /\ has_char PyStr.tab (rel_path sep subfolder root file) = false) ->
  path_line sep subfolder settings root file
  = discovered_line sep subfolder settings (root, file).
Proof.
  unfold path_line, discovered_line, indent_unit, rel_path. simpl.
  intros [Ht | [Hs Hr]].
  - now rewrite Ht.
  - destruct (truthy (use_tabs settings)); simpl; [reflexivity|].
    apply expandtabs_leading_tab.
    rewrite !has_char_app, Hs. unfold rel_path in Hr. rewrite Hr. reflexivity.
Qed.

Lemma for_each_ok {X Y : Type} (f : X -> result Y) (g : X -> Y) (l : list X) :
  (forall x, In x l -> f x = Ok (g x)) -> for_each f l = Ok (map g l).
Proof.
  induction l as [|x l IH]; intros H; cbn [for_each map]; [reflexivity|].
  rewrite (H x) by now left. cbn [rbind].
  rewrite IH by (intros y Hy; apply H; now right). reflexivity.
Qed.

(** The lines found in a walk, directory by directory, are the lines of
    its matching files. *)
Lemma concat_found (sep : ascii) (subfolder : string)
    (settings : NPSettings) (w : walk) :
  concat (map (fun entry : string * list string =>
                 map (path_line sep subfolder settings (fst entry))
                     (List.filter
                        (fun file => PyStr.endswith_any language_extensions file)
                        (snd entry))) w)
  = map (fun entry => path_line sep subfolder settings (fst entry) (snd entry))
        (matching_files w).
Proof.
  unfold matching_files.
  induction w as [|[root files] w IH]; [reflexivity|].
  cbn [map concat flat_map fst snd]. rewrite map_app, map_map, IH. reflexivity.
Qed.

Lemma found_fits (sep : ascii) (subfolder : string)
    (settings : NPSettings) (w : walk) :
  width_fits settings = true ->
  for_each (paths_in sep subfolder settings) w
  = Ok (map (fun entry : string * list string =>
               map (path_line sep subfolder settings (fst entry))
                   (List.filter
                      (fun file => PyStr.endswith_any language_extensions file)
                      (snd entry))) w).
Proof.
  intros Hfit. apply for_each_ok. intros [root files] _. unfold paths_in.
  apply for_each_ok. intros file _. cbn [fst].
  now rewrite format_path_cases, Hfit.
Qed.

(** A file is among the matching files exactly when the walk lists it
    and its name ends with a recognized extension. *)
Lemma in_matching_files (w : walk) (root file : string) :
  In (root, file) (matching_files w)
  <-> exists files, In (root, files) w /\ In file files
        /\ PyStr.endswith_any language_extensions file = true.
Proof.
  unfold matching_files. rewrite in_flat_map. split.
  - intros ([r files] & Hw & Hin). simpl in Hin.
    apply in_map_iff in Hin as (f & [= <- <-] & Hf).
    apply filter_In in Hf as [Hf He]. eauto.
  - intros (files & Hw & Hf & He). exists (root, files). split; [exact Hw|].
    simpl. apply in_map. apply filter_In. auto.
Qed.

Lemma seek_sources_no_match (sep : ascii) (subfolder : string)
    (settings : NPSettings) (w : walk) :
  width_fits settings = true ->
  matching_files w = [] ->
  seek_sources sep subfolder settings w = Raise TypeError_append.
Proof.
  intros Hfit H. unfold seek_sources.
  rewrite found_fits by exact Hfit. cbn [rbind].
  rewrite concat_found, H. cbn [map length Nat.eqb].
  destruct (no_paths_comment_cases subfolder settings) as [Hc _].
  rewrite Hfit in Hc. now destruct (no_paths_comment subfolder settings).
Qed.

Lemma seek_sources_some_match (sep : ascii) (subfolder : string)
    (settings : NPSettings) (w : walk) :
  width_fits settings = true ->
  matching_files w <> [] ->
  seek_sources sep subfolder settings w
  = Ok (map (fun entry => path_line sep subfolder settings (fst entry) (snd entry))
            (matching_files w)).
Proof.
  intros Hfit H. unfold seek_sources.
  rewrite found_fits by exact Hfit. cbn [rbind]. rewrite concat_found.
  destruct (matching_files w); [contradiction|reflexivity].
Qed.

(** Without a width that [expandtabs] accepts, the first call of
    [expandtabs] raises: the one for the first matching file, or the one
    for the comment when no file matches. *)
Lemma seek_sources_overflow (sep : ascii) (subfolder : string)
    (settings : NPSettings) (w : walk) :
  width_fits settings = false ->
  seek_sources sep subfolder settings w = Raise OverflowError.
Proof.
  intros Hfit. unfold seek_sources.
  assert (H : for_each (paths_in sep subfolder settings) w = Raise OverflowError
              \/ exists found,
                   for_each (paths_in sep subfolder settings) w = Ok found
                   /\ concat found = []).
  { induction w as [|[root files] w IH]; cbn [for_each].
    - right. exists []. auto.
    - assert (Hentry : paths_in sep subfolder settings (root, files) = Ok []
                       \/ paths_in sep subfolder settings (root, files)
                          = Raise OverflowError).
      { unfold paths_in. destruct (List.filter _ files) as [|file rest].
        - now left.
        - right. cbn [for_each]. now rewrite format_path_cases, Hfit. }
      destruct Hentry as [-> | ->]; cbn [rbind]; [|now left].
      destruct IH as [-> | (found & -> & Hnil)]; cbn [rbind].
      + now left.
      + right. exists ([] :: found). split; [reflexivity|exact Hnil]. }
  destruct H as [-> | (found & -> & Hnil)]; cbn [rbind]; [reflexivity|].
  rewrite Hnil. cbn [length Nat.eqb].
  destruct (no_paths_comment_cases subfolder settings) as [_ Hc].
  now rewrite (Hc Hfit).
Qed.

(** What discovery returned, when it returned. *)
Lemma seek_sources_returned (sep : ascii) (subfolder : string)
    (settings : NPSettings) (w : walk) (new : list string) :
  seek_sources sep subfolder settings w = Ok new ->
  width_fits settings = true
  /\ matching_files w <> []
  /\ new = map (fun entry => path_line sep subfolder settings (fst entry) (snd entry))
               (matching_files w).
Proof.
  intros H. destruct (width_fits settings) eqn:Hfit.
  - destruct (matching_files w) as [|e l] eqn:E.
    + rewrite seek_sources_no_match in H by assumption. discriminate.
    + rewrite seek_sources_some_match in H by (rewrite ?E; auto; discriminate).
      injection H as <-. rewrite E. repeat split. discriminate.
  - rewrite seek_sources_overflow in H by exact Hfit. discriminate.
Qed.

(** C7, as the code has it.  When some file matches and [expandtabs]
    does not accept the width, discovery raises [OverflowError].
    Otherwise it returns one line per file whose name ends with a
    recognized extension (five of the six are written without a leading
    dot), in walk order, and nothing else.  With tabs as indentation,
    or when neither the subdirectory name nor the relative path holds a
    tab character, the line of a file is one indentation unit, the
    subdirectory name, a forward slash, the relative path with forward
    slashes, and a line terminator.  [expandtabs] works on the whole
    line, so a tab inside a name is expanded as well. *)
Theorem seek_sources_lines (sep : ascii) (subfolder : string)
    (settings : NPSettings) (w : walk) :
  matching_files w <> [] ->
  (width_fits settings = false ->
   seek_sources sep subfolder settings w = Raise OverflowError)
  /\ (width_fits settings = true ->
      exists lines,
        seek_sources sep subfolder settings w = Ok lines
        /\ Forall2
             (fun entry line =>
                format_path sep subfolder settings (fst entry) (snd entry) = Ok line
                /\ (truthy (use_tabs settings) = true
                    \/ (has_char PyStr.tab subfolder = false
                        /\ has_char PyStr.tab
                             (rel_path sep subfolder (fst entry) (snd entry)) = false)
                    -> line = discovered_line sep subfolder settings entry))
             (matching_files w) lines)
  /\ (forall root file,
        In (root, file) (matching_files w)
        <-> exists files, In (root, files) w /\ In file files
              /\ PyStr.endswith_any language_extensions file = true)
  /\ length dotless_extensions = 5.
Proof.
  intros Hne. split; [apply seek_sources_overflow|].
  split; [|split; [apply in_matching_files|reflexivity]].
  intros Hfit. eexists. split; [now apply seek_sources_some_match|].
  clear Hne. induction (matching_files w) as [|[root file] l IH]; cbn [map];
    constructor; [|exact IH].
  cbn [fst snd]. split; [now rewrite format_path_cases, Hfit|].
  apply path_line_discovered.
Qed.

Lemma seek_sources_lines_witness :
  let w := [("src", ["a.cpp"; "notes.txt"]); ("src/sub", ["b.h"])] in
  (width_fits init = false -> seek_sources "/" "src" init w = Raise OverflowError)
  /\ (width_fits init = true ->
      exists lines,
        seek_sources "/" "src" init w = Ok lines
        /\ Forall2
             (fun entry line =>
                format_path "/" "src" init (fst entry) (snd entry) = Ok line
                /\ (truthy (use_tabs init) = true
                    \/ (has_char PyStr.tab "src" = false
                        /\ has_char PyStr.tab
                             (rel_path "/" "src" (fst entry) (snd entry)) = false)
                    -> line = discovered_line "/" "src" init entry))
             (matching_files w) lines)
  /\ (forall root file,
        In (root, file) (matching_files w)
        <-> exists files, In (root, files) w /\ In file files
              /\ PyStr.endswith_any language_extensions file = true)
  /\ length dotless_extensions = 5.
Proof.
  intros w. apply (seek_sources_lines "/" "src" init w).
  vm_compute. discriminate.
Defined.

(** C7 as stated does not hold.  Under the default settings (two
    spaces), the file [a<TAB>b.c] of [src] yields a line in which the
    tab of the name has become a space: not the relative path of the
    file.  And five of the recognized extensions, not three, lack the
    leading dot. *)
Lemma tab_in_name_is_expanded :
  let file := "a" +:+ PyStr.str1 PyStr.tab +:+ "b.c" in
  seek_sources "/" "src" init [("src", [file])] = Ok ["  src/a b.c" +:+ nl]
  /\ discovered_line "/" "src" init ("src", file) = "  src/" +:+ file +:+ nl
  /\ "  src/a b.c" +:+ nl <> "  src/" +:+ file +:+ nl
  /\ length dotless_extensions <> 3.
Proof.
  repeat split; try reflexivity; vm_compute; discriminate.
Qed.

(** The example of the specification: [src/a.cpp], [src/sub/b.h] and
    [src/notes.txt] under two-space indentation. *)
Example seek_sources_example :
  seek_sources "/" "src" init
    (os_walk "/" "src" (Dir ["a.cpp"; "notes.txt"] [("sub", Dir ["b.h"] [])]))
  = Ok ["  src/a.cpp" +:+ nl; "  src/sub/b.h" +:+ nl].
Proof. reflexivity. Qed.

(** A width outside the range of a C [int], which [int()] reads from
    the settings file without complaint, makes discovery raise. *)
Example seek_sources_wide :
  seek_sources "/" "src" {| use_tabs := PyBool false; expanded_spaces := 2147483648 |}
    [("src", ["a.c"])]
  = Raise OverflowError.
Proof. reflexivity. Qed.

(** C6 on the code: for a directory without matching files, here an
    empty [src], discovery prepares the fallback line and then raises
    instead of returning it. *)
Theorem seek_sources_empty_raises :
  seek_sources "/" "src" init (os_walk "/" "src" (Dir [] []))
  = Raise TypeError_append
  /\ no_paths_comment "src" init = Ok (fallback_line "src" init)
  /\ no_paths_comment "include" init = Ok (fallback_line "include" init).
Proof. repeat split. Qed.

End DiscoveryFacts.

(** ** Section locator and rewriter *)

Section ScanFacts.
Import Settings Discovery Update UpdateVocabulary.

Lemma scan_lines_app (words : list string) (a b : list string) :
  forall st index,
    scan_lines words st index (a ++ b)
    = scan_lines words (scan_lines words st index a) (index + length a) b.
Proof.
  induction a as [|l a IH]; intros st index; simpl.
  - now rewrite Nat.add_0_r.
  - rewrite IH. f_equal. lia.
Qed.

(** Outside a region, lines that are no marker lines leave the scan
    variables alone. *)
Lemma scan_no_marker (words : list string) (ls : list string) :
  forall st index,
    seek_end st = false -> no_marker words ls = true ->
    scan_lines words st index ls = st.
Proof.
  induction ls as [|l ls IH]; intros st index Hs Hn; simpl in *; [reflexivity|].
  apply andb_true_iff in Hn as [Hl Hn]. apply negb_true_iff in Hl.
  unfold scan_line. rewrite Hs, Hl. simpl. now apply IH.
Qed.

(** Inside a region, lines that do not begin with a closing parenthesis
    leave the scan variables alone. *)
Lemma scan_no_close (words : list string) (ls : list string) :
  forall st index,
    seek_end st = true -> no_close ls = true ->
    scan_lines words st index ls = st.
Proof.
  induction ls as [|l ls IH]; intros st index Hs Hn; simpl in *; [reflexivity|].
  apply andb_true_iff in Hn as [Hl Hn]. apply negb_true_iff in Hl.
  unfold scan_line. rewrite Hs, Hl. simpl. now apply IH.
Qed.

(** The scan of a buffer with one region: the marker line [m] after
    [pre], the body, the closing line [c], and no marker line after. *)
Lemma scan_region (words : list string) (st : scan)
    (pre : list string) (m : string) (body : list string) (c : string)
    (post : list string) :
  seek_end st = false ->
  no_marker words pre = true -> is_marker words m = true ->
  no_close body = true -> is_close c = true ->
  no_marker words post = true ->
  scan_lines words st 0 (pre ++ m :: body ++ c :: post)
  = {| seek_end := false;
       start_index := Some (length pre + 1);
       end_index := Some (length pre + 1 + length body) |}.
Proof.
  intros Hs Hpre Hm Hbody Hc Hpost.
  rewrite scan_lines_app, (scan_no_marker words pre st 0 Hs Hpre).
  cbn [scan_lines]. unfold scan_line at 1. rewrite Hs, Hm. cbn [negb].
  rewrite scan_lines_app, (scan_no_close words body) by auto.
  cbn [scan_lines]. unfold scan_line at 1. cbn [seek_end negb start_index].
  rewrite Hc. rewrite (scan_no_marker words post) by auto.
  f_equal; f_equal; lia.
Qed.

End ScanFacts.

Section SliceFacts.
Import Update.
Context {A : Type}.

(** [del l[s:e]] followed by [l[s:0] = new]: the lines before [s] and
    the lines from [max s e] on stay, [new] goes between them. *)
Lemma splice (l : list A) (s e : nat) (new : list A) :
  set_slice (del_slice l s e) s 0 new
  = firstn s l ++ new ++ skipn (Nat.max s e) l.
Proof.
  unfold set_slice, del_slice, slice_bounds.
  destruct (Nat.le_gt_cases s (length l)) as [Hs | Hs].
  - rewrite (Nat.min_l s (length l)) by lia.
    assert (Hlen : length (firstn s l) = s) by (rewrite length_firstn; lia).
    rewrite length_app, Hlen.
    rewrite (Nat.min_l s (s + _)) by lia.
    rewrite Nat.min_0_l, Nat.max_0_r.
    rewrite firstn_app, Hlen, Nat.sub_diag, firstn_O, app_nil_r.
    rewrite firstn_firstn, Nat.min_id.
    rewrite skipn_app, Hlen, Nat.sub_diag, skipn_O.
    rewrite (skipn_all2 (firstn s l)) by lia. simpl.
    destruct (Nat.le_gt_cases e (length l)) as [He | He].
    + now rewrite (Nat.min_l e (length l)) by lia.
    + rewrite (Nat.min_r e (length l)) by lia.
      rewrite (Nat.max_r s (length l)) by lia.
      rewrite !skipn_all2 by lia. reflexivity.
  - rewrite (Nat.min_r s (length l)) by lia.
    assert (Hstop : Nat.max (length l) (Nat.min e (length l)) = length l) by lia.
    rewrite Hstop, firstn_all, skipn_all, app_nil_r.
    rewrite (Nat.min_r s (length l)) by lia.
    rewrite Nat.min_0_l, Nat.max_0_r, firstn_all, skipn_all.
    rewrite firstn_all2 by lia. rewrite skipn_all2 by lia. reflexivity.
Qed.

Lemma splice_region (pre : list A) (m : A) (body : list A) (c : A)
    (post new : list A) :
  set_slice (del_slice (pre ++ m :: body ++ c :: post)
                       (length pre + 1) (length pre + 1 + length body))
            (length pre + 1) 0 new
  = pre ++ m :: new ++ c :: post.
Proof.
  rewrite splice.
  replace (Nat.max (length pre + 1) (length pre + 1 + length body))
    with (length pre + 1 + length body) by lia.
  replace (pre ++ m :: body ++ c :: post)
    with ((pre ++ [m]) ++ body ++ c :: post) by (now rewrite <- app_assoc).
  assert (Hlen : length (pre ++ [m]) = length pre + 1)
    by (rewrite length_app; reflexivity).
  rewrite <- Hlen.
  rewrite firstn_app, firstn_all, Nat.sub_diag, firstn_O, app_nil_r.
  rewrite skipn_app, (skipn_all2 (pre ++ [m])) by lia.
  replace (length (pre ++ [m]) + length body - length (pre ++ [m]))
    with (length body) by lia.
  rewrite skipn_app, skipn_all, Nat.sub_diag, skipn_O.
  now rewrite <- app_assoc.
Qed.

End SliceFacts.

Section PassFacts.
Import Settings Init Discovery Update UpdateVocabulary.

Lemma cmake_file_open (w : world) (lines : list string) :
  cmake_file w = Some lines -> open_cmake w = Ok lines.
Proof. unfold cmake_file. destruct (open_cmake w); congruence. Qed.

(** One pass over a buffer with a well-formed region. *)
Lemma pass_on_region (w : world) (settings : NPSettings) (st : scan)
    (section : string) (words : list string)
    (pre : list string) (m : string) (body : list string) (c : string)
    (post new : list string) :
  seek_end st = false ->
  no_marker words pre = true -> is_marker words m = true ->
  no_close body = true -> is_close c = true ->
  no_marker words post = true ->
  seek_sources (os_sep w) section settings (walk_of w section) = Ok new ->
  update_pass w settings (pre ++ m :: body ++ c :: post, st) (section, words)
  = Ok (pre ++ m :: new ++ c :: post,
        {| seek_end := false;
           start_index := Some (length pre + 1);
           end_index := Some (length pre + 1 + length body) |}).
Proof.
  intros Hs Hpre Hm Hbody Hc Hpost Hnew.
  unfold update_pass. rewrite Hnew.
  rewrite (scan_region words st pre m body c post) by assumption.
  cbn [rbind load start_index end_index]. now rewrite splice_region.
Qed.


(** The variables a scan leaves depend on the ones it started with only
    where it did not assign them. *)
Lemma scan_lines_carried (words : list string) (ls : list string) :
  forall st st' index,
    seek_end st = seek_end st' ->
    let r := scan_lines words st index ls in
    let r' := scan_lines words st' index ls in
    seek_end r = seek_end r'
    /\ (start_index r = start_index r'
        \/ (start_index r = start_index st /\ start_index r' = start_index st'))
    /\ (end_index r = end_index r'
        \/ (end_index r = end_index st /\ end_index r' = end_index st')).
Proof.
  induction ls as [|l ls IH]; intros st st' index Hs; cbn [scan_lines].
  - auto.
  - specialize (IH (scan_line words st index l) (scan_line words st' index l) (S index)).
    unfold scan_line in *.
    destruct (seek_end st) eqn:E, (seek_end st') eqn:E'; try discriminate;
      cbn [negb] in *.
    + destruct (is_close l); cbn [seek_end start_index end_index] in *.
      * destruct (IH eq_refl) as (H1 & H2 & H3). repeat split; auto.
        destruct H3 as [H3 | [H3 H3']]; [auto|left; congruence].
      * rewrite E, E' in IH. destruct (IH eq_refl) as (H1 & H2 & H3). auto.
    + destruct (is_marker words l); cbn [seek_end start_index end_index] in *.
      * destruct (IH eq_refl) as (H1 & H2 & H3). repeat split; auto.
        destruct H2 as [H2 | [H2 H2']]; [auto|left; congruence].
      * rewrite E, E' in IH. destruct (IH eq_refl) as (H1 & H2 & H3). auto.
Qed.

(** With the flag clear, a scan that finds both boundaries by itself
    does not depend on the variables it started with. *)
Lemma scan_lines_fresh (words : list string) (ls : list string) (st : scan) :
  seek_end st = false ->
  start_index (scan_lines words scan_init 0 ls) <> None ->
  end_index (scan_lines words scan_init 0 ls) <> None ->
  scan_lines words st 0 ls = scan_lines words scan_init 0 ls.
Proof.
  intros Hs Hstart Hend.
  destruct (scan_lines_carried words ls st scan_init 0 Hs) as (H1 & H2 & H3).
  destruct H2 as [H2 | [_ H2]]; [|cbn in H2; congruence].
  destruct H3 as [H3 | [_ H3]]; [|cbn in H3; congruence].
  destruct (scan_lines words st 0 ls), (scan_lines words scan_init 0 ls).
  cbn in *. congruence.
Qed.

(** Whatever makes the update raise, nothing is written. *)
Lemma update_raise_no_write (w w' : world) (out : list printed) (e : exn) :
  update_cmakelist_sources w = (w', out, Raise e) -> w' = w.
Proof.
  unfold update_cmakelist_sources.
  destruct (read _ _) as [rs [[]|e0]]; [|congruence].
  destruct (open_cmake w) as [lines|]; [|congruence].
  destruct (update_passes _ _ _ _) as [[lines' sc]|e1]; congruence.
Qed.

Lemma spec_start_first (words : list string) (pre : list string) (m : string)
    (rest : list string) :
  forall index,
    no_marker words pre = true -> is_marker words m = true ->
    spec_start words index (pre ++ m :: rest) = Some (index + length pre + 1).
Proof.
  induction pre as [|l pre IH]; intros index Hpre Hm; cbn [app spec_start length].
  - rewrite Hm. f_equal. lia.
  - cbn [no_marker forallb] in Hpre. apply andb_true_iff in Hpre as [Hl Hpre].
    apply negb_true_iff in Hl. rewrite Hl, (IH (S index) Hpre Hm). f_equal. lia.
Qed.

(** C2, as the code has it: in a pass that starts with the scan flag
    clear and whose discovery returns [new], on a buffer in which [m]
    is the first line with all marker tokens, [c] the first later line
    that begins (untrimmed) with a closing parenthesis, and no line
    after [c] holds all marker tokens, the start boundary is the index
    after [m], the end boundary the index of [c], both lines stay, and
    exactly the lines between them are replaced by [new], in order. *)
Theorem update_pass_replaces_region (w : world) (settings : NPSettings)
    (st : scan) (section : string) (words : list string)
    (pre : list string) (m : string) (body : list string) (c : string)
    (post new : list string) :
  seek_end st = false ->
  no_marker words pre = true -> is_marker words m = true ->
  no_close body = true -> is_close c = true ->
  no_marker words post = true ->
  seek_sources (os_sep w) section settings (walk_of w section) = Ok new ->
  exists st',
    update_pass w settings (pre ++ m :: body ++ c :: post, st) (section, words)
    = Ok (pre ++ m :: new ++ c :: post, st')
    /\ start_index st' = Some (length pre + 1)
    /\ end_index st' = Some (length pre + 1 + length body)
    /\ spec_start words 0 (pre ++ m :: body ++ c :: post) = start_index st'.
Proof.
  intros Hs Hpre Hm Hbody Hc Hpost Hnew.
  eexists. split; [now apply pass_on_region|]. cbn [start_index end_index].
  repeat split.
  now rewrite spec_start_first.
Qed.

Lemma update_pass_replaces_region_witness :
  exists st',
    update_pass (demo_world [] ["main.c"] ["main.h"]) init
      (["# demo" +:+ nl] ++ ("set ( SRCS " +:+ nl)
         :: ["  old.c" +:+ nl; "  )" +:+ nl] ++ (")" +:+ nl) :: ["set ( HDRS" +:+ nl],
       scan_init) ("src", src_words)
    = Ok (["# demo" +:+ nl] ++ ("set ( SRCS " +:+ nl)
            :: ["  src/main.c" +:+ nl] ++ (")" +:+ nl) :: ["set ( HDRS" +:+ nl], st')
    /\ start_index st' = Some (length ["# demo" +:+ nl] + 1)
    /\ end_index st'
       = Some (length ["# demo" +:+ nl] + 1 + length ["  old.c" +:+ nl; "  )" +:+ nl])
    /\ spec_start src_words 0
         (["# demo" +:+ nl] ++ ("set ( SRCS " +:+ nl)
            :: ["  old.c" +:+ nl; "  )" +:+ nl] ++ (")" +:+ nl) :: ["set ( HDRS" +:+ nl])
       = start_index st'.
Proof.
  apply (update_pass_replaces_region (demo_world [] ["main.c"] ["main.h"]) init
           scan_init "src" src_words
           ["# demo" +:+ nl] ("set ( SRCS " +:+ nl)
           ["  old.c" +:+ nl; "  )" +:+ nl] (")" +:+ nl) ["set ( HDRS" +:+ nl]
           ["  src/main.c" +:+ nl]); reflexivity.
Defined.

(** C2 as stated does not hold.  In the first buffer the line [  )] is
    the first line after the marker whose trimmed content begins with a
    closing parenthesis, but the code looks at the untrimmed line and
    ends the region two lines later.  In the second buffer a later line
    holds the marker tokens again: the code keeps scanning and takes
    the last such line, not the first. *)
Lemma boundaries_differ_from_specification :
  let indented :=
    ["set ( SRCS" +:+ nl; "  old.c" +:+ nl; "  )" +:+ nl; "keep" +:+ nl; ")" +:+ nl] in
  let repeated :=
    ["set ( SRCS" +:+ nl; "  old.c" +:+ nl; ")" +:+ nl;
     "# set SRCS by hand" +:+ nl; "keep" +:+ nl; ")" +:+ nl] in
  let new := ["  src/a.c" +:+ nl] in
  (update_pass (demo_world indented ["a.c"] ["a.h"]) init (indented, scan_init) src_entry
   = Ok (["set ( SRCS" +:+ nl; "  src/a.c" +:+ nl; ")" +:+ nl],
         {| seek_end := false; start_index := Some 1; end_index := Some 4 |})
   /\ spec_start src_words 0 indented = Some 1
   /\ spec_end 1 0 indented = Some 2
   /\ spec_rewrite src_words indented new
      = Some ["set ( SRCS" +:+ nl; "  src/a.c" +:+ nl; "  )" +:+ nl; "keep" +:+ nl;
              ")" +:+ nl])
  /\ (update_pass (demo_world repeated ["a.c"] ["a.h"]) init (repeated, scan_init) src_entry
      = Ok (["set ( SRCS" +:+ nl; "  old.c" +:+ nl; ")" +:+ nl;
             "# set SRCS by hand" +:+ nl; "  src/a.c" +:+ nl; ")" +:+ nl],
            {| seek_end := false; start_index := Some 4; end_index := Some 5 |})
      /\ spec_start src_words 0 repeated = Some 1
      /\ spec_end 1 0 repeated = Some 2
      /\ spec_rewrite src_words repeated new
         = Some ["set ( SRCS" +:+ nl; "  src/a.c" +:+ nl; ")" +:+ nl;
                 "# set SRCS by hand" +:+ nl; "keep" +:+ nl; ")" +:+ nl]).
Proof. repeat split. Qed.




(** C3, as the code has it: the headers pass scans the buffer the
    sources pass produced, from index 0, but starts from the scan flag
    and the boundaries the sources pass left.  Its boundaries are those
    of a scan that starts afresh when the sources pass left the flag
    clear and the buffer by itself yields both boundaries. *)
Theorem headers_pass_scan (w : world) (settings : NPSettings)
    (lines mid final : list string) (st1 st2 : scan) :
  update_pass w settings (lines, scan_init) src_entry = Ok (mid, st1) ->
  update_pass w settings (mid, st1) hdr_entry = Ok (final, st2) ->
  update_passes w settings (lines, scan_init) search_data = Ok (final, st2)
  /\ st2 = scan_lines hdr_words st1 0 mid
  /\ (seek_end st1 = false ->
      start_index (scan_lines hdr_words scan_init 0 mid) <> None ->
      end_index (scan_lines hdr_words scan_init 0 mid) <> None ->
      st2 = scan_lines hdr_words scan_init 0 mid).
Proof.
  intros H1 H2.
  assert (Hst2 : st2 = scan_lines hdr_words st1 0 mid).
  { unfold update_pass, hdr_entry in H2.
    destruct (seek_sources _ _ _ _); cbn [rbind] in H2; [|discriminate].
    destruct (load "start_index" _); cbn [rbind] in H2; [|discriminate].
    destruct (load "end_index" _); cbn [rbind] in H2; [|discriminate].
    now injection H2 as _ <-. }
  repeat split.
  - change (update_passes w settings (lines, scan_init) search_data)
      with (rbind (update_pass w settings (lines, scan_init) src_entry)
              (fun st' => rbind (update_pass w settings st' hdr_entry) Ok)).
    rewrite H1. cbn [rbind]. rewrite H2. reflexivity.
  - exact Hst2.
  - intros Hs Hstart Hend. rewrite Hst2. now apply scan_lines_fresh.
Qed.

Lemma headers_pass_scan_witness :
  let lines := ["set ( SRCS " +:+ nl; "  old.c" +:+ nl; ")" +:+ nl;
                "set ( HDRS" +:+ nl; ")" +:+ nl] in
  let mid := ["set ( SRCS " +:+ nl; "  src/a.c" +:+ nl; ")" +:+ nl;
              "set ( HDRS" +:+ nl; ")" +:+ nl] in
  let final := ["set ( SRCS " +:+ nl; "  src/a.c" +:+ nl; ")" +:+ nl;
                "set ( HDRS" +:+ nl; "  include/a.h" +:+ nl; ")" +:+ nl] in
  let st1 := {| seek_end := false; start_index := Some 1; end_index := Some 2 |} in
  let st2 := {| seek_end := false; start_index := Some 4; end_index := Some 4 |} in
  update_passes (demo_world lines ["a.c"] ["a.h"]) init (lines, scan_init) search_data
  = Ok (final, st2)
  /\ st2 = scan_lines hdr_words st1 0 mid
  /\ (seek_end st1 = false ->
      start_index (scan_lines hdr_words scan_init 0 mid) <> None ->
      end_index (scan_lines hdr_words scan_init 0 mid) <> None ->
      st2 = scan_lines hdr_words scan_init 0 mid).
Proof.
  intros lines mid final st1 st2.
  apply (headers_pass_scan (demo_world lines ["a.c"] ["a.h"]) init
           lines mid final st1 st2); reflexivity.
Defined.

(** C3 as stated does not hold.  On this buffer the sources pass ends
    while it is still looking for a closing line.  The headers pass
    starts with that flag set, passes over the headers marker line at
    index 0 without testing it, and ends with boundaries (7, 2); a scan
    of the same buffer that starts afresh finds (1, 2). *)
Lemma headers_pass_depends_on_sources_pass :
  let lines := ["set(HDR" +:+ nl; "h_old" +:+ nl; ")" +:+ nl;
                "set(SRCS" +:+ nl; "s_old" +:+ nl; ")" +:+ nl;
                "# set SRCS" +:+ nl] in
  let mid := lines ++ ["  src/a.c" +:+ nl] in
  let st1 := {| seek_end := true; start_index := Some 7; end_index := Some 5 |} in
  update_pass (demo_world lines ["a.c"] ["a.h"]) init (lines, scan_init) src_entry
  = Ok (mid, st1)
  /\ scan_lines hdr_words st1 0 mid
     = {| seek_end := false; start_index := Some 7; end_index := Some 2 |}
  /\ scan_lines hdr_words scan_init 0 mid
     = {| seek_end := false; start_index := Some 1; end_index := Some 2 |}
  /\ scan_lines hdr_words st1 0 mid <> scan_lines hdr_words scan_init 0 mid.
Proof. repeat split. discriminate. Qed.

End PassFacts.

(** ** Text files *)

Section TextFacts.
Import Settings Init Discovery DiscoveryVocabulary Update UpdateVocabulary.

Lemma str_app_cons (x : ascii) (a b : string) :
  String x a +:+ b = String x (a +:+ b).
Proof. reflexivity. Qed.

Lemma str_app_assoc (a b c : string) : (a +:+ b) +:+ c = a +:+ (b +:+ c).
Proof.
  induction a as [|x a IH]; [reflexivity|].
  rewrite !str_app_cons. f_equal. exact IH.
Qed.

Lemma str_app_nil_r (a : string) : a +:+ EmptyString = a.
Proof.
  induction a as [|x a IH]; [reflexivity|].
  rewrite str_app_cons. f_equal. exact IH.
Qed.

Lemma writelines_cons (l : string) (ls : list string) :
  PyStr.writelines (l :: ls) = l +:+ PyStr.writelines ls.
Proof. reflexivity. Qed.

Lemma writelines_app (a b : list string) :
  PyStr.writelines (a ++ b) = PyStr.writelines a +:+ PyStr.writelines b.
Proof.
  induction a as [|l a IH]; [reflexivity|].
  cbn [app]. rewrite !writelines_cons, IH. now rewrite str_app_assoc.
Qed.

Lemma split_lines_not_nil (c : ascii) (s : string) :
  PyStr.split_lines (String c s) <> [].
Proof.
  cbn [PyStr.split_lines]. destruct (Ascii.eqb c PyStr.newline); [discriminate|].
  destruct (PyStr.split_lines s); discriminate.
Qed.

(** Cutting a text into lines loses no character. *)
Lemma writelines_split_lines (text : string) :
  PyStr.writelines (PyStr.split_lines text) = text.
Proof.
  induction text as [|c text IH]; [reflexivity|].
  cbn [PyStr.split_lines]. destruct (Ascii.eqb c PyStr.newline).
  - rewrite writelines_cons, IH. reflexivity.
  - destruct (PyStr.split_lines text) as [|h t] eqn:E.
    + destruct text as [|c' text']; [reflexivity|].
      now destruct (split_lines_not_nil c' text').
    + rewrite writelines_cons in *. rewrite str_app_cons, IH. reflexivity.
Qed.

(** What is read holds no carriage return. *)
Lemma translate_newlines_no_cr (s : string) :
  has_char PyStr.carriage_return (PyStr.translate_newlines s) = false.
Proof.
  assert (H : forall n s, String.length s <= n ->
                has_char PyStr.carriage_return (PyStr.translate_newlines s) = false).
  { clear s. induction n as [|n IH]; intros s Hlen.
    - destruct s; [reflexivity|cbn in Hlen; lia].
    - destruct s as [|c s']; [reflexivity|]. cbn [String.length] in Hlen.
      cbn [PyStr.translate_newlines].
      destruct (Ascii.eqb c PyStr.carriage_return) eqn:Hc.
      + destruct s' as [|c' s'']; [reflexivity|]. cbn [String.length] in Hlen.
        destruct (Ascii.eqb c' PyStr.newline); cbn [has_char];
          rewrite IH by (cbn [String.length]; lia); reflexivity.
      + cbn [has_char]. rewrite Hc. apply IH. lia. }
  now apply (H (String.length s)).
Qed.

(** A text without carriage returns is read as it is. *)
Lemma translate_newlines_id (s : string) :
  has_char PyStr.carriage_return s = false -> PyStr.translate_newlines s = s.
Proof.
  induction s as [|c s IH]; [reflexivity|].
  cbn [has_char PyStr.translate_newlines]. intros H.
  apply orb_false_iff in H as [Hc Hs]. rewrite Hc. f_equal. now apply IH.
Qed.

Lemma has_char_writelines (c : ascii) (ls : list string) :
  has_char c (PyStr.writelines ls) = existsb (has_char c) ls.
Proof.
  induction ls as [|l ls IH]; [reflexivity|].
  rewrite writelines_cons, has_char_app, IH. reflexivity.
Qed.

Lemma split_lines_no_cr (s : string) :
  has_char PyStr.carriage_return s = false ->
  existsb (has_char PyStr.carriage_return) (PyStr.split_lines s) = false.
Proof.
  intros H. rewrite <- has_char_writelines. now rewrite writelines_split_lines.
Qed.

(** A line that ends at its only line end is cut off as it is. *)
Lemma split_lines_line (l s : string) :
  ends_at_newline l = true ->
  PyStr.split_lines (l +:+ s) = l :: PyStr.split_lines s.
Proof.
  induction l as [|c l IH]; [discriminate|].
  rewrite str_app_cons. cbn [ends_at_newline PyStr.split_lines].
  destruct (Ascii.eqb c PyStr.newline) eqn:Hc.
  - intros Hl. apply String.eqb_eq in Hl. subst l. reflexivity.
  - intros Hl. now rewrite (IH Hl).
Qed.

Lemma split_lines_last (l : string) :
  l <> EmptyString -> has_char PyStr.newline l = false ->
  PyStr.split_lines l = [l].
Proof.
  induction l as [|c l IH]; [congruence|]. intros _.
  cbn [has_char PyStr.split_lines]. intros H.
  apply orb_false_iff in H as [Hc Hl]. rewrite Hc.
  destruct l as [|c' l']; [reflexivity|].
  rewrite IH by (congruence || exact Hl). reflexivity.
Qed.

Lemma one_line_cons (c : ascii) (l : string) :
  Ascii.eqb c PyStr.newline = false ->
  Ascii.eqb c PyStr.carriage_return = false ->
  one_line (String c l) = one_line l.
Proof.
  intros Hn Hc. unfold one_line. cbn [ends_at_newline has_char].
  now rewrite Hn, Hc.
Qed.

Lemma last_line_cons (c : ascii) (l : string) :
  Ascii.eqb c PyStr.newline = false ->
  Ascii.eqb c PyStr.carriage_return = false ->
  last_line l = true -> last_line (String c l) = true.
Proof.
  intros Hn Hc. unfold last_line. rewrite (one_line_cons c l Hn Hc).
  cbn [has_char]. rewrite Hn, Hc. cbn [orb].
  destruct (one_line l); [reflexivity|]. cbn [orb].
  rewrite !andb_true_iff. intros [[_ H1] H2]. repeat split; assumption.
Qed.

(** What [readlines] hands out is a buffer of lines. *)
Lemma split_lines_read_back (s : string) :
  has_char PyStr.carriage_return s = false ->
  read_back (PyStr.split_lines s) = true.
Proof.
  induction s as [|c s IH]; [reflexivity|].
  cbn [has_char]. intros H. apply orb_false_iff in H as [Hc Hs].
  specialize (IH Hs). cbn [PyStr.split_lines].
  destruct (Ascii.eqb c PyStr.newline) eqn:Hn.
  - apply Ascii.eqb_eq in Hn. subst c.
    cbn [read_back]. destruct (PyStr.split_lines s); [reflexivity|].
    now rewrite IH.
  - destruct (PyStr.split_lines s) as [|h t].
    + cbn [read_back]. unfold last_line, one_line. cbn. now rewrite Hn, Hc.
    + cbn [read_back] in *. destruct t as [|h' t'].
      * now apply last_line_cons.
      * rewrite one_line_cons by assumption. exact IH.
Qed.

Lemma readlines_read_back (text : string) :
  read_back (PyStr.readlines text) = true.
Proof. apply split_lines_read_back, translate_newlines_no_cr. Qed.

Lemma one_line_no_cr (l : string) :
  one_line l = true -> has_char PyStr.carriage_return l = false.
Proof.
  unfold one_line. rewrite andb_true_iff, negb_true_iff. tauto.
Qed.

Lemma last_line_no_cr (l : string) :
  last_line l = true -> has_char PyStr.carriage_return l = false.
Proof.
  unfold last_line. rewrite orb_true_iff, !andb_true_iff, !negb_true_iff.
  intros [H | [_ H]]; [now apply one_line_no_cr|exact H].
Qed.

Lemma read_back_no_cr (lines : list string) :
  read_back lines = true ->
  existsb (has_char PyStr.carriage_return) lines = false.
Proof.
  induction lines as [|l [|l' rest] IH]; [reflexivity| |]; cbn [read_back existsb].
  - intros H. now rewrite (last_line_no_cr l H).
  - rewrite andb_true_iff. intros [Hl Hrest].
    rewrite (one_line_no_cr l Hl). now apply IH.
Qed.

Lemma split_lines_writelines (lines : list string) :
  read_back lines = true -> PyStr.split_lines (PyStr.writelines lines) = lines.
Proof.
  induction lines as [|l [|l' rest] IH]; [reflexivity| |].
  - cbn [read_back]. rewrite writelines_cons. unfold last_line, one_line.
    rewrite orb_true_iff, !andb_true_iff, !negb_true_iff.
    intros [[He _] | [[Hne Hn] _]].
    + now rewrite split_lines_line.
    + change (PyStr.writelines []) with EmptyString. rewrite str_app_nil_r.
      apply split_lines_last; [|exact Hn].
      intros ->. discriminate.
  - cbn [read_back]. rewrite andb_true_iff. intros [Hl Hrest].
    rewrite writelines_cons. unfold one_line in Hl.
    apply andb_true_iff in Hl as [He _].
    rewrite split_lines_line by exact He. f_equal. now apply IH.
Qed.

(** A buffer of lines is read as it was written. *)
Lemma readlines_writelines (lines : list string) :
  read_back lines = true -> PyStr.readlines (PyStr.writelines lines) = lines.
Proof.
  intros H. unfold PyStr.readlines.
  rewrite translate_newlines_id
    by (rewrite has_char_writelines; now apply read_back_no_cr).
  now apply split_lines_writelines.
Qed.

Lemma read_back_app (a b : list string) :
  b <> [] -> read_back (a ++ b) = forallb one_line a && read_back b.
Proof.
  intros Hb. induction a as [|l a IH]; [reflexivity|].
  cbn [app read_back forallb]. rewrite <- andb_assoc, <- IH.
  destruct (a ++ b) eqn:E; [|reflexivity].
  apply app_eq_nil in E as [_ E]. contradiction.
Qed.

(** Lines that are not the last may be replaced by complete lines. *)
Lemma read_back_replace (pre body body' post : list string) :
  post <> [] ->
  forallb one_line body' = true ->
  read_back (pre ++ body ++ post) = true ->
  read_back (pre ++ body' ++ post) = true.
Proof.
  intros Hpost Hbody'.
  assert (Hne : forall x : list string, x ++ post <> []).
  { intros x E. apply app_eq_nil in E as [_ E]. contradiction. }
  rewrite (read_back_app pre (body ++ post)), (read_back_app pre (body' ++ post))
    by apply Hne.
  rewrite (read_back_app body post), (read_back_app body' post) by exact Hpost.
  rewrite Hbody'. rewrite !andb_true_iff. tauto.
Qed.

Lemma np_file_write (w : world) (lines : list string) :
  np_file (write_cmake w lines) = np_file w.
Proof.
  unfold np_file, write_cmake. cbn [files].
  now rewrite lookup_insert_ne by discriminate.
Qed.

Lemma open_cmake_write (w : world) (lines : list string) :
  read_back lines = true -> open_cmake (write_cmake w lines) = Ok lines.
Proof.
  intros H. unfold open_cmake, write_cmake. cbn [files].
  rewrite lookup_insert_eq. now rewrite readlines_writelines.
Qed.

Lemma cmake_file_write (w : world) (lines : list string) :
  read_back lines = true -> cmake_file (write_cmake w lines) = Some lines.
Proof. intros H. unfold cmake_file. now rewrite open_cmake_write. Qed.

(** The lines of the build file come from its text. *)
Lemma cmake_file_text (w : world) (lines : list string) :
  cmake_file w = Some lines ->
  exists text, cmake_text w = Some text /\ lines = PyStr.readlines text.
Proof.
  unfold cmake_file, open_cmake, cmake_text.
  destruct (files w !! "CMakeLists.txt") as [[|text]|]; try discriminate.
  intros [= <-]. eauto.
Qed.

End TextFacts.

Section RunFacts.
Import Settings SettingsVocabulary Init Discovery DiscoveryVocabulary.
Import Update UpdateVocabulary.

(** Brings boolean conjunctions and the tests on compound lists, in
    the hypotheses and in the goal, to the tests on their parts. *)
Ltac bool_split :=
  unfold regions_wf, no_marker, no_close in *;
  repeat (rewrite ?forallb_app in *; cbn [forallb] in * );
  repeat rewrite ?andb_true_iff, ?andb_true_r, ?negb_true_iff in *;
  repeat match goal with
         | H : _ /\ _ |- _ => destruct H
         end;
  repeat split; try assumption; try reflexivity.

(** A closing line that is no marker line ends a scan with the flag
    clear, whatever came before. *)
Lemma scan_close_settles (words : list string) (st : scan) (index : nat)
    (c : string) :
  is_close c = true -> is_marker words c = false ->
  seek_end (scan_line words st index c) = false.
Proof.
  intros Hc Hm. unfold scan_line.
  destruct (seek_end st) eqn:Hs; cbn [negb]; rewrite ?Hc, ?Hm; auto.
Qed.

(** Lines [X] without marker lines, then any lines [body], then a
    closing line and lines [Y] without marker lines: the scan ends with
    the flag clear, also when [body] holds marker tokens. *)
Lemma scan_decoy_settles (words : list string) (st : scan) (index : nat)
    (X body : list string) (c : string) (Y : list string) :
  seek_end st = false ->
  no_marker words X = true ->
  is_close c = true -> is_marker words c = false ->
  no_marker words Y = true ->
  seek_end (scan_lines words st index (X ++ body ++ c :: Y)) = false.
Proof.
  intros Hs HX Hc Hm HY.
  rewrite scan_lines_app, (scan_no_marker words X) by assumption.
  rewrite scan_lines_app. cbn [scan_lines].
  rewrite (scan_no_marker words Y);
    [now apply scan_close_settles|now apply scan_close_settles|assumption].
Qed.

(** [scan_region] for a scan that reaches the marker line with the
    flag clear. *)
Lemma scan_region_settled (words : list string) (st : scan)
    (pre : list string) (m : string) (body : list string) (c : string)
    (post : list string) :
  seek_end (scan_lines words st 0 pre) = false ->
  is_marker words m = true ->
  no_close body = true -> is_close c = true ->
  no_marker words post = true ->
  scan_lines words st 0 (pre ++ m :: body ++ c :: post)
  = {| seek_end := false;
       start_index := Some (length pre + 1);
       end_index := Some (length pre + 1 + length body) |}.
Proof.
  intros Hs Hm Hbody Hc Hpost.
  rewrite scan_lines_app.
  change (m :: body ++ c :: post) with ([] ++ m :: body ++ c :: post).
  set (st' := scan_lines words st 0 pre) in *.
  cbn [app scan_lines]. unfold scan_line at 1. rewrite Hs, Hm. cbn [negb].
  rewrite scan_lines_app, (scan_no_close words body) by auto.
  cbn [scan_lines]. unfold scan_line at 1. cbn [seek_end negb start_index].
  rewrite Hc. rewrite (scan_no_marker words post) by auto.
  f_equal; f_equal; lia.
Qed.

Lemma pass_on_region_settled (w : world) (settings : NPSettings) (st : scan)
    (section : string) (words : list string)
    (pre : list string) (m : string) (body : list string) (c : string)
    (post new : list string) :
  seek_end (scan_lines words st 0 pre) = false ->
  is_marker words m = true ->
  no_close body = true -> is_close c = true ->
  no_marker words post = true ->
  seek_sources (os_sep w) section settings (walk_of w section) = Ok new ->
  update_pass w settings (pre ++ m :: body ++ c :: post, st) (section, words)
  = Ok (pre ++ m :: new ++ c :: post,
        {| seek_end := false;
           start_index := Some (length pre + 1);
           end_index := Some (length pre + 1 + length body) |}).
Proof.
  intros Hs Hm Hbody Hc Hpost Hnew.
  unfold update_pass. rewrite Hnew.
  rewrite (scan_region_settled words st pre m body c post) by assumption.
  cbn [rbind load start_index end_index]. now rewrite splice_region.
Qed.

(** A list has no marker line, or splits at its first one. *)
Lemma first_marker (words : list string) (l : list string) :
  no_marker words l = true
  \/ exists n1 x n2,
       l = n1 ++ x :: n2 /\ no_marker words n1 = true /\ is_marker words x = true.
Proof.
  induction l as [|a l IH]; [now left|].
  destruct (is_marker words a) eqn:Ha.
  - right. exists [], a, l. auto.
  - destruct IH as [Hn | (n1 & x & n2 & -> & Hn1 & Hx)].
    + left. cbn [no_marker forallb]. rewrite Ha. exact Hn.
    + right. exists (a :: n1), x, n2. repeat split; auto.
      cbn [no_marker forallb]. rewrite Ha. exact Hn1.
Qed.

Lemma expandtabs_from_tab (tabsize : Z) (col : nat) (s : string) :
  PyStr.expandtabs_from tabsize col (String PyStr.tab s)
  = if (0 <? tabsize)%Z
    then PyStr.spaces (Z.to_nat tabsize - col mod Z.to_nat tabsize)
         +:+ PyStr.expandtabs_from tabsize
               (col + (Z.to_nat tabsize - col mod Z.to_nat tabsize)) s
    else PyStr.expandtabs_from tabsize col s.
Proof. reflexivity. Qed.

(** A discovered line of [src] or [include] does not begin with a
    closing parenthesis: it begins with a tab, a space, or the
    directory name. *)
Lemma path_line_not_close (sep : ascii) (subfolder : string)
    (settings : NPSettings) (root file : string) :
  subfolder = "src" \/ subfolder = "include" ->
  is_close (path_line sep subfolder settings root file) = false.
Proof.
  intros Hsub. unfold path_line, is_close, PyStr.startswith.
  destruct (truthy (use_tabs settings)); cbn [negb].
  - reflexivity.
  - change (PyStr.str1 PyStr.tab +:+ ?x) with (String PyStr.tab x).
    rewrite expandtabs_from_tab.
    destruct (0 <? expanded_spaces settings)%Z eqn:Hpos.
    + apply Z.ltb_lt in Hpos.
      destruct (Z.to_nat (expanded_spaces settings)) as [|k] eqn:Hk; [lia|].
      rewrite Nat.Div0.mod_0_l, Nat.sub_0_r. reflexivity.
    + destruct Hsub as [-> | ->]; reflexivity.
Qed.

Lemma discovered_no_close (sep : ascii) (subfolder : string)
    (settings : NPSettings) (w : walk) (new : list string) :
  subfolder = "src" \/ subfolder = "include" ->
  seek_sources sep subfolder settings w = Ok new ->
  no_close new = true.
Proof.
  intros Hsub Hnew.
  destruct (seek_sources_returned _ _ _ _ _ Hnew) as (_ & _ & ->).
  unfold no_close. apply forallb_forall. intros line Hin.
  apply in_map_iff in Hin as (entry & <- & _).
  now rewrite path_line_not_close.
Qed.

(** One pass over a buffer in which a later body [d] may hold the
    marker tokens.  Without such a line in [d] the region of [m] is
    rewritten.  With one, the scan takes the first such line for a
    marker line and the closing line [c'] for its end: the lines of [d]
    behind it are replaced and the region of [m] stays as it was.  The
    lines outside [b] and [d] stay in both cases. *)
Lemma pass_with_later_decoy (w : world) (settings : NPSettings) (st : scan)
    (section : string) (words : list string)
    (A : list string) (m : string) (b : list string) (c : string)
    (Y d : list string) (c' : string) (Z new : list string) :
  seek_end st = false ->
  no_marker words A = true -> is_marker words m = true ->
  no_close b = true -> is_close c = true ->
  no_marker words Y = true ->
  no_close d = true -> is_close c' = true -> is_marker words c' = false ->
  no_marker words Z = true ->
  no_close new = true ->
  seek_sources (os_sep w) section settings (walk_of w section) = Ok new ->
  exists r d' st',
    update_pass w settings (A ++ m :: b ++ c :: Y ++ d ++ c' :: Z, st) (section, words)
    = Ok (A ++ m :: r ++ c :: Y ++ d' ++ c' :: Z, st')
    /\ seek_end st' = false
    /\ no_close r = true /\ no_close d' = true
    /\ (r = new \/ r = b)
    /\ (no_marker words d = true -> r = new /\ d' = d).
Proof.
  intros Hs HA Hm Hb Hc HY Hd Hc' Hmc' HZ Hn Hnew.
  destruct (first_marker words d) as [Hnone | (n1 & x & n2 & -> & Hn1 & Hx)].
  - exists new, d. eexists.
    rewrite (pass_on_region w settings st section words
               A m b c (Y ++ d ++ c' :: Z) new);
      try solve [bool_split].
    repeat split; auto.
  - exists b, (n1 ++ x :: new). eexists.
    replace (A ++ m :: b ++ c :: Y ++ (n1 ++ x :: n2) ++ c' :: Z)
      with ((A ++ m :: b ++ c :: Y ++ n1) ++ x :: n2 ++ c' :: Z)
      by (repeat (rewrite <- ?app_assoc; cbn [app]); reflexivity).
    rewrite (pass_on_region_settled w settings st section words
               (A ++ m :: b ++ c :: Y ++ n1) x n2 c' Z new);
      try solve [bool_split].
    + split.
      { f_equal. f_equal. repeat (rewrite <- ?app_assoc; cbn [app]). reflexivity. }
      split; [reflexivity|]. split; [exact Hb|]. split; [solve [bool_split]|].
      split; [now right|].
      intros Hnone. exfalso. revert Hnone Hx. clear. intros Hnone Hx.
      bool_split. congruence.
    + rewrite (scan_region words st A m b c (Y ++ n1)); solve [bool_split].
Qed.

(** The two passes on a buffer that has the sources region first.  The
    headers region ends up with the discovered header lines.  The
    sources region does too, unless a line of the old headers body
    holds the marker tokens of the sources region: then the sources
    pass works in the headers body and the sources region stays. *)
Lemma passes_sources_first (w : world) (settings : NPSettings)
    (A B C : list string) (ms : string) (bs : list string) (cs : string)
    (mh : string) (bh : list string) (ch : string) (new_src new_hdr : list string) :
  seek_sources (os_sep w) "src" settings (walk_of w "src") = Ok new_src ->
  seek_sources (os_sep w) "include" settings (walk_of w "include") = Ok new_hdr ->
  regions_wf A B C ms bs cs mh bh ch = true ->
  exists r_src st,
    update_passes w settings (two_regions A ms bs cs B mh bh ch C, scan_init) search_data
    = Ok (two_regions A ms r_src cs B mh new_hdr ch C, st)
    /\ (r_src = new_src \/ r_src = bs)
    /\ (no_marker src_words bh = true -> r_src = new_src).
Proof.
  intros Hsrc Hhdr Hok.
  assert (Hcs : no_close new_src = true)
    by (eapply discovered_no_close; [left; reflexivity|exact Hsrc]).
  change (update_passes w settings ?st search_data)
    with (rbind (update_pass w settings st src_entry)
            (fun st' => rbind (update_pass w settings st' hdr_entry) Ok)).
  unfold two_regions, src_entry.
  destruct (pass_with_later_decoy w settings scan_init "src" src_words
              A ms bs cs (B ++ [mh]) bh ch C new_src)
    as (r & d' & st1 & Hpass & Hst1 & Hr & Hd' & Hcase & Hclean);
    try solve [bool_split].
  replace (A ++ ms :: bs ++ cs :: B ++ mh :: bh ++ ch :: C)
    with (A ++ ms :: bs ++ cs :: (B ++ [mh]) ++ bh ++ ch :: C)
    by (repeat (rewrite <- ?app_assoc; cbn [app]); reflexivity).
  rewrite Hpass. cbn [rbind]. unfold hdr_entry.
  replace (A ++ ms :: r ++ cs :: (B ++ [mh]) ++ d' ++ ch :: C)
    with (((A ++ [ms]) ++ r ++ cs :: B) ++ mh :: d' ++ ch :: C)
    by (repeat (rewrite <- ?app_assoc; cbn [app]); reflexivity).
  rewrite (pass_on_region_settled w settings st1 "include" hdr_words
             ((A ++ [ms]) ++ r ++ cs :: B) mh d' ch C new_hdr);
    try solve [bool_split].
  - cbn [rbind]. exists r. eexists. split; [|split].
    + f_equal. f_equal. repeat (rewrite <- ?app_assoc; cbn [app]). reflexivity.
    + exact Hcase.
    + intros Hbh. now destruct (Hclean Hbh).
  - apply scan_decoy_settles; solve [bool_split].
Qed.

(** The two passes on a buffer that has the headers region first.  The
    lines outside the bodies stay.  The bodies become the discovered
    lines when no discovered source line holds the marker tokens of the
    headers region; otherwise the headers pass works behind the first
    such line. *)
Lemma passes_headers_first (w : world) (settings : NPSettings)
    (A B C : list string) (ms : string) (bs : list string) (cs : string)
    (mh : string) (bh : list string) (ch : string) (new_src new_hdr : list string) :
  seek_sources (os_sep w) "src" settings (walk_of w "src") = Ok new_src ->
  seek_sources (os_sep w) "include" settings (walk_of w "include") = Ok new_hdr ->
  regions_wf A B C ms bs cs mh bh ch = true ->
  exists r_src r_hdr st,
    update_passes w settings (two_regions A mh bh ch B ms bs cs C, scan_init) search_data
    = Ok (two_regions A mh r_hdr ch B ms r_src cs C, st)
    /\ (no_marker hdr_words new_src = true -> r_src = new_src /\ r_hdr = new_hdr).
Proof.
  intros Hsrc Hhdr Hok.
  assert (Hcs : no_close new_src = true)
    by (eapply discovered_no_close; [left; reflexivity|exact Hsrc]).
  assert (Hch : no_close new_hdr = true)
    by (eapply discovered_no_close; [right; reflexivity|exact Hhdr]).
  change (update_passes w settings ?st search_data)
    with (rbind (update_pass w settings st src_entry)
            (fun st' => rbind (update_pass w settings st' hdr_entry) Ok)).
  unfold two_regions, src_entry.
  replace (A ++ mh :: bh ++ ch :: B ++ ms :: bs ++ cs :: C)
    with (((A ++ [mh]) ++ bh ++ ch :: B) ++ ms :: bs ++ cs :: C)
    by (repeat (rewrite <- ?app_assoc; cbn [app]); reflexivity).
  rewrite (pass_on_region_settled w settings scan_init "src" src_words
             ((A ++ [mh]) ++ bh ++ ch :: B) ms bs cs C new_src);
    try solve [bool_split];
    [|apply scan_decoy_settles; solve [bool_split]].
  cbn [rbind]. unfold hdr_entry.
  destruct (pass_with_later_decoy w settings
              {| seek_end := false;
                 start_index := Some (length ((A ++ [mh]) ++ bh ++ ch :: B) + 1);
                 end_index := Some (length ((A ++ [mh]) ++ bh ++ ch :: B) + 1
                                    + length bs) |}
              "include" hdr_words A mh bh ch (B ++ [ms]) new_src cs C new_hdr)
    as (r & d' & st2 & Hpass & _ & _ & _ & _ & Hclean);
    try solve [bool_split].
  replace (((A ++ [mh]) ++ bh ++ ch :: B) ++ ms :: new_src ++ cs :: C)
    with (A ++ mh :: bh ++ ch :: (B ++ [ms]) ++ new_src ++ cs :: C)
    by (repeat (rewrite <- ?app_assoc; cbn [app]); reflexivity).
  rewrite Hpass. cbn [rbind]. exists d', r, st2. split.
  - f_equal. f_equal. repeat (rewrite <- ?app_assoc; cbn [app]). reflexivity.
  - intros Hnone. destruct (Hclean Hnone) as [-> ->]. auto.
Qed.

(** From the passes to the whole update. *)
Lemma update_of_passes (w : world) (rs : rstate)
    (lines lines' : list string) (st : scan) :
  read (np_file w) fresh = (rs, Ok tt) ->
  cmake_file w = Some lines ->
  update_passes w (self rs) (lines, scan_init) search_data = Ok (lines', st) ->
  update_cmakelist_sources w = (write_cmake w lines', stdout rs, Ok tt).
Proof.
  intros Hread Hfile Hpasses. unfold update_cmakelist_sources.
  unfold fresh in Hread.
  now rewrite Hread, (cmake_file_open w lines Hfile), Hpasses.
Qed.






Lemma matching_files_filter (w : walk) :
  matching_files w
  = List.filter (fun entry => PyStr.endswith_any language_extensions (snd entry))
                (files_of w).
Proof.
  unfold matching_files, files_of.
  induction w as [|[root files] w IH]; [reflexivity|].
  cbn [flat_map fst snd]. rewrite List.filter_app, <- IH. f_equal.
  clear IH. induction files as [|f files IHf]; [reflexivity|].
  cbn [List.filter map snd]. destruct (PyStr.endswith_any _ f); cbn [map]; now rewrite IHf.
Qed.

Lemma Permutation_list_filter {X : Type} (f : X -> bool) (a b : list X) :
  Permutation a b -> Permutation (List.filter f a) (List.filter f b).
Proof.
  induction 1 as [|x a b _ IH|x y a|a b c _ IH1 _ IH2]; cbn [List.filter].
  - constructor.
  - destruct (f x); [now constructor|exact IH].
  - destruct (f x), (f y); try reflexivity. constructor.
  - now transitivity (List.filter f b).
Qed.

Lemma forallb_Permutation {X : Type} (f : X -> bool) (a b : list X) :
  Permutation a b -> forallb f a = forallb f b.
Proof.
  induction 1 as [|x a b _ IH|x y a|a b c _ IH1 _ IH2]; cbn [forallb].
  - reflexivity.
  - now rewrite IH.
  - destruct (f x), (f y); reflexivity.
  - congruence.
Qed.

(** Discovery over two walks of the same tree finds the same lines, in
    some order. *)
Lemma seek_sources_same_tree (sep : ascii) (subfolder : string)
    (settings : NPSettings) (w1 w2 : walk) (new1 : list string) :
  same_tree w1 w2 ->
  seek_sources sep subfolder settings w1 = Ok new1 ->
  exists new2,
    seek_sources sep subfolder settings w2 = Ok new2 /\ Permutation new1 new2.
Proof.
  intros Hsame Hnew.
  assert (Hperm : Permutation (matching_files w1) (matching_files w2)).
  { rewrite !matching_files_filter. now apply Permutation_list_filter. }
  destruct (seek_sources_returned _ _ _ _ _ Hnew) as (Hfit & Hne1 & ->).
  assert (Hne : matching_files w2 <> []).
  { intros E2. rewrite E2 in Hperm.
    apply Permutation_sym, Permutation_nil in Hperm. contradiction. }
  eexists. split; [now apply seek_sources_some_match|].
  now apply Permutation_map.
Qed.

Lemma read_back_two_regions (A : list string)
    (m : string) (b : list string) (c : string) (B : list string)
    (m' : string) (b' : list string) (c' : string) (C : list string)
    (r r' : list string) :
  forallb one_line r = true -> forallb one_line r' = true ->
  read_back (two_regions A m b c B m' b' c' C) = true ->
  read_back (two_regions A m r c B m' r' c' C) = true.
Proof.
  intros Hr Hr' H. unfold two_regions in *.
  replace (A ++ m :: r ++ c :: B ++ m' :: r' ++ c' :: C)
    with ((A ++ m :: r ++ c :: B ++ [m']) ++ r' ++ c' :: C)
    by (repeat (rewrite <- ?app_assoc; cbn [app]); reflexivity).
  apply (read_back_replace _ b'); [discriminate|exact Hr'|].
  replace ((A ++ m :: r ++ c :: B ++ [m']) ++ b' ++ c' :: C)
    with ((A ++ [m]) ++ r ++ c :: B ++ m' :: b' ++ c' :: C)
    by (repeat (rewrite <- ?app_assoc; cbn [app]); reflexivity).
  apply (read_back_replace _ b); [discriminate|exact Hr|].
  repeat (rewrite <- ?app_assoc; cbn [app]). exact H.
Qed.

Lemma cmake_file_read_back (w : world) (lines : list string) :
  cmake_file w = Some lines -> read_back lines = true.
Proof.
  intros H. destruct (cmake_file_text w lines H) as (text & _ & ->).
  apply readlines_read_back.
Qed.

Lemma forallb_one_line_Permutation (a b : list string) :
  Permutation a b -> forallb one_line a = true -> forallb one_line b = true.
Proof. intros H. now rewrite (forallb_Permutation one_line a b H). Qed.

(** The second run over what a first run wrote: it reads the settings
    the first run read and the lines the first run wrote. *)
Lemma update_again (w : world) (rs : rstate) (walk2 : string -> walk)
    (lines lines' : list string) (st : scan) :
  read (np_file w) fresh = (rs, Ok tt) ->
  read_back lines = true ->
  update_passes {| os_sep := os_sep w; files := files (write_cmake w lines);
                   walk_of := walk2 |}
    (self rs) (lines, scan_init) search_data = Ok (lines', st) ->
  update_cmakelist_sources
    {| os_sep := os_sep w; files := files (write_cmake w lines); walk_of := walk2 |}
  = (write_cmake {| os_sep := os_sep w; files := files (write_cmake w lines);
                    walk_of := walk2 |} lines',
     stdout rs, Ok tt).
Proof.
  intros Hread Hback Hpasses. apply (update_of_passes _ rs lines lines' st).
  - rewrite <- Hread. f_equal. unfold np_file, write_cmake. cbn [files].
    now rewrite lookup_insert_ne by discriminate.
  - unfold cmake_file, open_cmake, write_cmake. cbn [files].
    rewrite lookup_insert_eq. now rewrite readlines_writelines.
  - exact Hpasses.
Qed.

(** C5, as the code has it: on a buffer with two well-formed regions,
    in either order, in which each marker line is the only line with
    its tokens that the scans test, and with discovered lines that are
    each one line (no name of the tree holds a line break), a second
    update over the same file tree, listed in whatever order, reads
    what the first update wrote and leaves in each region the lines the
    first update left there, up to their order. *)
Theorem update_twice_same_region_contents (w : world) (rs : rstate)
    (A B C : list string) (ms : string) (bs : list string) (cs : string)
    (mh : string) (bh : list string) (ch : string) (new_src new_hdr : list string)
    (walk2 : string -> walk) :
  read (np_file w) fresh = (rs, Ok tt) ->
  seek_sources (os_sep w) "src" (self rs) (walk_of w "src") = Ok new_src ->
  seek_sources (os_sep w) "include" (self rs) (walk_of w "include") = Ok new_hdr ->
  forallb one_line new_src = true ->
  forallb one_line new_hdr = true ->
  regions_wf A B C ms bs cs mh bh ch = true ->
  same_tree (walk_of w "src") (walk2 "src") ->
  same_tree (walk_of w "include") (walk2 "include") ->
  (no_marker src_words bh = true ->
   cmake_file w = Some (two_regions A ms bs cs B mh bh ch C) ->
   exists r_src r_hdr,
     Permutation new_src r_src /\ Permutation new_hdr r_hdr
     /\ cmake_file (fst (fst (update_cmakelist_sources w)))
        = Some (two_regions A ms new_src cs B mh new_hdr ch C)
     /\ cmake_file (fst (fst (rerun w walk2)))
        = Some (two_regions A ms r_src cs B mh r_hdr ch C)
     /\ snd (rerun w walk2) = Ok tt)
  /\ (no_marker hdr_words new_src = true ->
      cmake_file w = Some (two_regions A mh bh ch B ms bs cs C) ->
      exists r_src r_hdr,
        Permutation new_src r_src /\ Permutation new_hdr r_hdr
        /\ cmake_file (fst (fst (update_cmakelist_sources w)))
           = Some (two_regions A mh new_hdr ch B ms new_src cs C)
        /\ cmake_file (fst (fst (rerun w walk2)))
           = Some (two_regions A mh r_hdr ch B ms r_src cs C)
        /\ snd (rerun w walk2) = Ok tt).
Proof.
  intros Hread Hsrc Hhdr Hls Hlh Hok Hts Hth.
  destruct (seek_sources_same_tree _ _ _ _ _ _ Hts Hsrc) as (new_src' & Hsrc' & Hps).
  destruct (seek_sources_same_tree _ _ _ _ _ _ Hth Hhdr) as (new_hdr' & Hhdr' & Hph).
  pose proof (forallb_one_line_Permutation _ _ Hps Hls) as Hls'.
  pose proof (forallb_one_line_Permutation _ _ Hph Hlh) as Hlh'.
  assert (Hcs : no_close new_src = true)
    by (eapply discovered_no_close; [left; reflexivity|exact Hsrc]).
  assert (Hch : no_close new_hdr = true)
    by (eapply discovered_no_close; [right; reflexivity|exact Hhdr]).
  assert (Hok' : regions_wf A B C ms new_src cs mh new_hdr ch = true).
  { unfold regions_wf in *. rewrite !andb_true_iff in *. tauto. }
  split.
  - intros Hbh Hfile.
    pose proof (cmake_file_read_back w _ Hfile) as Hback.
    destruct (passes_sources_first w (self rs) A B C ms bs cs mh bh ch
                new_src new_hdr Hsrc Hhdr Hok) as (r1 & st & Hst & _ & Hr1).
    rewrite (Hr1 Hbh) in Hst.
    pose proof (update_of_passes w rs _ _ st Hread Hfile Hst) as Hrun.
    pose proof (read_back_two_regions A ms bs cs B mh bh ch C new_src new_hdr
                  Hls Hlh Hback) as Hback1.
    unfold rerun. rewrite Hrun. cbn [fst snd].
    change (os_sep (write_cmake w ?l)) with (os_sep w).
    set (w1 := {| os_sep := os_sep w;
                  files := files (write_cmake w
                                    (two_regions A ms new_src cs B mh new_hdr ch C));
                  walk_of := walk2 |}).
    destruct (passes_sources_first w1 (self rs) A B C ms new_src cs mh new_hdr ch
                new_src' new_hdr' Hsrc' Hhdr' Hok') as (r2 & st' & Hst' & Hr2 & _).
    unfold w1 in *. rewrite (update_again w rs walk2 _ _ st' Hread Hback1 Hst').
    cbn [fst snd].
    exists r2, new_hdr'.
    assert (Hp2 : Permutation new_src r2)
      by (destruct Hr2 as [-> | ->]; [exact Hps|apply Permutation_refl]).
    split; [exact Hp2|]. split; [exact Hph|].
    split; [now apply cmake_file_write|]. split; [|reflexivity].
    apply cmake_file_write.
    apply (read_back_two_regions A ms bs cs B mh bh ch C); auto.
    now apply (forallb_one_line_Permutation new_src).
  - intros Hnone Hfile.
    pose proof (cmake_file_read_back w _ Hfile) as Hback.
    assert (Hnone' : no_marker hdr_words new_src' = true)
      by (unfold no_marker in *; now rewrite <- (forallb_Permutation _ _ _ Hps)).
    destruct (passes_headers_first w (self rs) A B C ms bs cs mh bh ch
                new_src new_hdr Hsrc Hhdr Hok) as (r_src & r_hdr & st & Hst & Hr).
    destruct (Hr Hnone) as [-> ->].
    pose proof (update_of_passes w rs _ _ st Hread Hfile Hst) as Hrun.
    pose proof (read_back_two_regions A mh bh ch B ms bs cs C new_hdr new_src
                  Hlh Hls Hback) as Hback1.
    unfold rerun. rewrite Hrun. cbn [fst snd].
    change (os_sep (write_cmake w ?l)) with (os_sep w).
    set (w1 := {| os_sep := os_sep w;
                  files := files (write_cmake w
                                    (two_regions A mh new_hdr ch B ms new_src cs C));
                  walk_of := walk2 |}).
    destruct (passes_headers_first w1 (self rs) A B C ms new_src cs mh new_hdr ch
                new_src' new_hdr' Hsrc' Hhdr' Hok')
      as (r_src' & r_hdr' & st' & Hst' & Hr').
    destruct (Hr' Hnone') as [-> ->].
    unfold w1 in *. rewrite (update_again w rs walk2 _ _ st' Hread Hback1 Hst').
    cbn [fst snd].
    exists new_src', new_hdr'.
    split; [exact Hps|]. split; [exact Hph|].
    split; [now apply cmake_file_write|]. split; [|reflexivity].
    apply cmake_file_write.
    apply (read_back_two_regions A mh bh ch B ms bs cs C); auto.
Qed.

Lemma update_twice_same_region_contents_witness :
  let w := demo_world demo_cmake ["main.c"; "util.c"] ["np.h"] in
  let ms := "set ( SRCS " +:+ nl in
  let mh := "set ( HDRS" +:+ nl in
  let c := ")" +:+ nl in
  let bs := ["  # project sources" +:+ nl] in
  let bh := ["  # project headers" +:+ nl] in
  let new_src := ["  src/main.c" +:+ nl; "  src/util.c" +:+ nl] in
  let new_hdr := ["  include/np.h" +:+ nl] in
  exists r_src r_hdr,
    Permutation new_src r_src /\ Permutation new_hdr r_hdr
    /\ cmake_file (fst (fst (update_cmakelist_sources w)))
       = Some (two_regions demo_head ms new_src c [] mh new_hdr c demo_tail)
    /\ cmake_file (fst (fst (rerun w demo_walk2)))
       = Some (two_regions demo_head ms r_src c [] mh r_hdr c demo_tail)
    /\ snd (rerun w demo_walk2) = Ok tt.
Proof.
  intros w ms mh c bs bh new_src new_hdr.
  apply (proj1 (update_twice_same_region_contents w fresh demo_head [] demo_tail
                  ms bs c mh bh c new_src new_hdr demo_walk2
                  eq_refl eq_refl eq_refl eq_refl eq_refl eq_refl
                  (perm_swap _ _ _) (Permutation_refl _))).
  - reflexivity.
  - reflexivity.
Defined.

(** C5 as stated does not hold.  In the first buffer a comment in the
    headers body holds the marker tokens of the sources region.  The
    first run takes it for the sources marker line, leaves [old.c] in
    the sources region and removes the comment with the headers body;
    the second run then finds the sources region and replaces [old.c]:
    the region contents after the two runs differ, with the same tree.
    In the second world a file name holds a line break: the first run
    writes one discovered line, the second run reads it as two lines,
    the second of which begins with a closing parenthesis, and leaves
    other lines in the sources region than the first. *)
Lemma second_run_changes_region :
  let before :=
    ["set ( SRCS" +:+ nl; "old.c" +:+ nl; ")" +:+ nl;
     "set ( HDRS" +:+ nl; "# set SRCS first" +:+ nl; ")" +:+ nl] in
  let w := demo_world before ["a.c"] ["a.h"] in
  let broken := "a" +:+ nl +:+ ")b.c" in
  let plain := ["set ( SRCS" +:+ nl; ")" +:+ nl; "set ( HDRS" +:+ nl; ")" +:+ nl] in
  let w' := demo_world plain [broken] ["a.h"] in
  (cmake_file (fst (fst (update_cmakelist_sources w)))
   = Some ["set ( SRCS" +:+ nl; "old.c" +:+ nl; ")" +:+ nl;
           "set ( HDRS" +:+ nl; "  include/a.h" +:+ nl; ")" +:+ nl]
   /\ cmake_file (fst (fst (rerun w (walk_of w))))
      = Some ["set ( SRCS" +:+ nl; "  src/a.c" +:+ nl; ")" +:+ nl;
              "set ( HDRS" +:+ nl; "  include/a.h" +:+ nl; ")" +:+ nl]
   /\ ~ Permutation ["old.c" +:+ nl] ["  src/a.c" +:+ nl])
  /\ (cmake_file (fst (fst (update_cmakelist_sources w')))
      = Some ["set ( SRCS" +:+ nl; "  src/a" +:+ nl; ")b.c" +:+ nl; ")" +:+ nl;
              "set ( HDRS" +:+ nl; "  include/a.h" +:+ nl; ")" +:+ nl]
      /\ cmake_file (fst (fst (rerun w' (walk_of w'))))
         = Some ["set ( SRCS" +:+ nl; "  src/a" +:+ nl; ")b.c" +:+ nl;
                 ")b.c" +:+ nl; ")" +:+ nl;
                 "set ( HDRS" +:+ nl; "  include/a.h" +:+ nl; ")" +:+ nl]).
Proof.
  cbv zeta. split; [split; [|split]|split].
  - reflexivity.
  - reflexivity.
  - intros H. apply Permutation_length_1 in H. discriminate.
  - reflexivity.
  - reflexivity.
Qed.

End RunFacts.

(** ** Project initializer *)

Section InitFacts.
Import Settings Init.

(** C8 on the code: [create_project] does not look at what
    [make_project_folder] returns.  When the target directory exists,
    the failure is printed, and then the build file in it is
    overwritten and success is printed as well. *)
Theorem create_project_existing_target_overwrites :
  let before :=
    {| fs := <["demo" := NDir]>
               (<["demo/CMakeLists.txt" := NFile "# written by hand"]> ∅);
       out := [] |} in
  let after := fst (create_project "demo" None "C/CXX" before) in
  make_project_folder "demo" before
  = ({| fs := fs before;
        out := [Print "File path already exists, try again. :D"] |}, Ok false)
  /\ snd (create_project "demo" None "C/CXX" before) = Ok tt
  /\ fs before !! "demo/CMakeLists.txt" = Some (NFile "# written by hand")
  /\ fs after !! "demo/CMakeLists.txt" = Some (NFile (cmake_project "demo" "C/CXX"))
  /\ fs after <> fs before
  /\ out after = [Print "File path already exists, try again. :D";
                  Print "Done! Use `cd demo` to navigate to demo."].
Proof.
  repeat split; try reflexivity.
  intros H. apply (f_equal (fun m => m !! "demo/CMakeLists.txt")) in H.
  vm_compute in H. discriminate.
Qed.

(** On a fresh path the three directories and the build file are
    created, and no placeholder is left in the file. *)
Example create_project_fresh :
  let after := fst (create_project "demo" None "C/CXX" {| fs := ∅; out := [] |}) in
  fs after
  = <["demo/CMakeLists.txt" := NFile (cmake_project "demo" "C/CXX")]>
      (<["demo/include" := NDir]> (<["demo/src" := NDir]> (<["demo" := NDir]> ∅)))
  /\ PyStr.contains "%project_name%" (cmake_project "demo" "C/CXX") = false
  /\ PyStr.contains "%languages%" (cmake_project "demo" "C/CXX") = false
  /\ out after = [Print "Done! Use `cd demo` to navigate to demo."].
Proof. repeat split; reflexivity. Qed.

End InitFacts.

(** * Further properties *)

(** ** Settings *)

Section MoreSettingsFacts.
Import Settings SettingsVocabulary MoreVocabulary.

Lemma no_malformed_value (lines : list string) :
  existsb malformed_value lines = false ->
  Forall (fun l => value_error l = None) lines.
Proof.
  induction lines as [|l lines IH]; cbn [existsb]; intros H; constructor.
  - apply orb_false_iff in H as [Hl _].
    destruct (value_error l) eqn:E; [|reflexivity].
    assert (Hm : malformed_value l = true)
      by (apply malformed_value_error; congruence).
    congruence.
  - apply IH. now apply orb_false_iff in H as [_ H].
Qed.

(** X1: The load raises exactly when some line has a recognized key with a
    value that does not parse; blank lines, comments, lines with more
    or fewer than two fields and unknown keys never make it raise. *)
Theorem read_raises_iff_malformed (lines : list string) (s : rstate) :
  (exists s' e, read (Some lines) s = (s', Raise e))
  <-> existsb malformed_value lines = true.
Proof.
  split.
  - intros (s' & e & H). destruct (existsb malformed_value lines) eqn:E; [reflexivity|].
    destruct (read_lines_ok lines 0 s (no_malformed_value lines E)) as [s'' Hok].
    cbn [read] in H. congruence.
  - intros H.
    destruct (first_malformed lines H) as (pre & bad & rest & e & -> & Hpre & Hbad).
    destruct (read_lines_ok pre 0 s Hpre) as [s' Hs'].
    exists s', e. cbn [read]. eapply read_lines_stops; eauto.
Qed.

Lemma read_lines_skips (lines : list string) :
  forall (index : nat) (s : rstate),
    Forall (fun l => is_setting_line l = false) lines ->
    read_lines index lines s = (s, Ok tt).
Proof.
  induction lines as [|l lines IH]; intros index s Hall; cbn [read_lines].
  - reflexivity.
  - inversion Hall as [|? ? Hl Hrest]; subst.
    unfold se_bind, read_line. rewrite Hl. cbn [se_ret]. now apply IH.
Qed.

(** X2: A settings file of blank lines and comments only leaves the
    settings as they are and prints nothing. *)
Theorem read_comments_only (lines : list string) (s : rstate) :
  Forall (fun l => is_setting_line l = false) lines ->
  read (Some lines) s = (s, Ok tt).
Proof. intros H. cbn [read]. now apply read_lines_skips. Qed.

Lemma read_comments_only_witness :
  read (Some ["# indentation" +:+ nl; nl; "   " +:+ nl; "  # use_tabs: yes" +:+ nl])
       fresh
  = (fresh, Ok tt).
Proof.
  apply (read_comments_only
           ["# indentation" +:+ nl; nl; "   " +:+ nl; "  # use_tabs: yes" +:+ nl] fresh).
  repeat constructor.
Defined.

(** X3: Reading a file is reading its first part and then, if that did not
    raise, the rest with the line numbers counted on. *)
Theorem read_lines_app (a b : list string) :
  forall (index : nat) (s : rstate),
    read_lines index (a ++ b) s
    = match read_lines index a s with
      | (s', Ok _) => read_lines (index + length a) b s'
      | (s', Raise e) => (s', Raise e)
      end.
Proof.
  induction a as [|l a IH]; intros index s; cbn [app read_lines length].
  - cbn [se_ret]. now rewrite Nat.add_0_r.
  - unfold se_bind. destruct (read_line index l s) as [s1 [[]|e]].
    + rewrite IH. now replace (S index + length a) with (index + S (length a)) by lia.
    + reflexivity.
Qed.

Lemma read_line_output (index : nat) (line : string) (s s' : rstate) (r : result unit) :
  read_line index line s = (s', r) ->
  stdout s' = stdout s
  \/ exists text, stdout s' = stdout s ++ [PrintAt text (index + 1) line].
Proof.
  unfold read_line.
  destruct (is_setting_line line); [|intros [= <- _]; now left].
  destruct (PyStr.split ":" line) as [|t0 [|t1 [|t2 ts]]];
    try (intros [= <- _]; right; eexists; reflexivity).
  destruct (String.eqb _ "use_tabs").
  { unfold se_bind, se_lift. destruct (bool_check _); intros [= <- _]; now left. }
  destruct (String.eqb _ "expanded_spaces").
  { unfold se_bind, se_lift. destruct (py_int _); intros [= <- _]; now left. }
  intros [= <- _]. right. eexists. reflexivity.
Qed.

Lemma read_lines_output (lines : list string) :
  forall (index : nat) (s s' : rstate) (r : result unit),
    read_lines index lines s = (s', r) ->
    exists added,
      stdout s' = stdout s ++ added
      /\ Forall (fun p => exists text lineno line,
                   p = PrintAt text lineno line
                   /\ index < lineno
                   /\ nth_error lines (lineno - 1 - index) = Some line) added.
Proof.
  induction lines as [|l lines IH]; intros index s s' r H; cbn [read_lines] in H.
  - injection H as <- _. exists []. split; [now rewrite app_nil_r|constructor].
  - unfold se_bind in H. destruct (read_line index l s) as [s1 r1] eqn:Hl.
    assert (Hhead : exists first,
               stdout s1 = stdout s ++ first
               /\ Forall (fun p => exists text lineno line,
                            p = PrintAt text lineno line
                            /\ index < lineno
                            /\ nth_error (l :: lines) (lineno - 1 - index) = Some line)
                         first).
    { destruct (read_line_output _ _ _ _ _ Hl) as [E | [text E]].
      - exists []. split; [now rewrite app_nil_r|constructor].
      - exists [PrintAt text (index + 1) l]. split; [exact E|].
        constructor; [|constructor]. exists text, (index + 1), l.
        repeat split; [lia|].
        now replace (index + 1 - 1 - index) with 0 by lia. }
    destruct Hhead as (first & E1 & F1).
    destruct r1 as [[]|e].
    + destruct (IH _ _ _ _ H) as (rest & E2 & F2).
      exists (first ++ rest). split; [now rewrite E2, E1, app_assoc|].
      apply List.Forall_app. split; [exact F1|].
      eapply List.Forall_impl; [|exact F2].
      intros p (text & lineno & line & -> & Hlt & Hnth).
      exists text, lineno, line. repeat split; [lia|].
      replace (lineno - 1 - index) with (S (lineno - 1 - S index)) by lia.
      exact Hnth.
    + injection H as <- _. exists first. split; [exact E1|exact F1].
Qed.

(** X4: Whatever [read] prints about a line names that line: the number
    printed is the one-based number of a line of the file and the text
    printed is that line.  (The two are printed after the message, which
    still shows its two placeholders.) *)
Theorem read_reports_name_lines (lines : list string) (s s' : rstate)
    (r : result unit) :
  read (Some lines) s = (s', r) ->
  exists added,
    stdout s' = stdout s ++ added /\ Forall (names_line lines) added.
Proof.
  cbn [read]. intros H.
  destruct (read_lines_output lines 0 s s' r H) as (added & E & F).
  exists added. split; [exact E|].
  eapply List.Forall_impl; [|exact F].
  intros p (text & lineno & line & -> & Hlt & Hnth). cbn [names_line].
  split; [lia|]. now rewrite Nat.sub_0_r in Hnth.
Qed.

Lemma read_reports_name_lines_witness :
  exists added,
    stdout {| self := {| use_tabs := PyInt 1; expanded_spaces := 2 |};
              stdout := [PrintAt "Invalid setting found at line {}: {}" 2
                           ("tabs: yes" +:+ nl);
                         PrintAt "Invalid syntax at line {}: {}" 3
                           ("use_tabs = yes" +:+ nl)] |}
    = stdout fresh ++ added
    /\ Forall (names_line ["use_tabs: yes" +:+ nl; "tabs: yes" +:+ nl;
                           "use_tabs = yes" +:+ nl]) added.
Proof.
  apply (read_reports_name_lines
           ["use_tabs: yes" +:+ nl; "tabs: yes" +:+ nl; "use_tabs = yes" +:+ nl]
           fresh _ (Ok tt)).
  reflexivity.
Defined.

End MoreSettingsFacts.

(** ** File discovery *)

Section MoreDiscoveryFacts.
Import Settings SettingsVocabulary Discovery DiscoveryVocabulary.
Import Update UpdateVocabulary MoreVocabulary.

Lemma str_length_app (a b : string) :
  String.length (a +:+ b) = String.length a + String.length b.
Proof.
  induction a as [|x a IH]; [reflexivity|].
  rewrite str_app_cons. cbn [String.length Nat.add]. f_equal. exact IH.
Qed.

Lemma drop_length_app (a b : string) : PyStr.drop (String.length a) (a +:+ b) = b.
Proof.
  induction a as [|x a IH]; [reflexivity|].
  rewrite str_app_cons. cbn [String.length PyStr.drop]. exact IH.
Qed.

Lemma endswith_app (a suf : string) : PyStr.endswith suf (a +:+ suf) = true.
Proof.
  unfold PyStr.endswith. rewrite str_length_app.
  replace (String.length a + String.length suf - String.length suf)
    with (String.length a) by lia.
  rewrite drop_length_app, String.eqb_refl, andb_true_r.
  apply Nat.leb_le. lia.
Qed.

Lemma expandtabs_from_newline_end (tabsize : Z) (s : string) :
  forall col,
    PyStr.expandtabs_from tabsize col (s +:+ nl)
    = PyStr.expandtabs_from tabsize col s +:+ nl.
Proof.
  induction s as [|c s IH]; intros col.
  - reflexivity.
  - rewrite str_app_cons. cbn [PyStr.expandtabs_from].
    destruct (Ascii.eqb c PyStr.tab).
    + destruct (0 <? tabsize)%Z; [|apply IH].
      now rewrite IH, str_app_assoc.
    + destruct (Ascii.eqb c PyStr.newline || Ascii.eqb c PyStr.carriage_return);
        rewrite str_app_cons; now rewrite IH.
Qed.

Lemma path_line_newline_end (sep : ascii) (subfolder : string)
    (settings : NPSettings) (root file : string) :
  PyStr.endswith nl (path_line sep subfolder settings root file) = true.
Proof.
  unfold path_line.
  set (rel := PyStr.replace_char _ _ _).
  change (PyStr.str1 PyStr.newline) with nl.
  replace (PyStr.str1 PyStr.tab +:+ subfolder +:+ "/" +:+ rel +:+ nl)
    with ((PyStr.str1 PyStr.tab +:+ subfolder +:+ "/" +:+ rel) +:+ nl)
    by (now rewrite !str_app_assoc).
  destruct (negb (truthy (use_tabs settings))).
  - rewrite expandtabs_from_newline_end. apply endswith_app.
  - apply endswith_app.
Qed.

Lemma has_char_drop (c : ascii) (s : string) :
  forall n, has_char c s = false -> has_char c (PyStr.drop n s) = false.
Proof.
  induction s as [|a s IH]; intros [|n] H; cbn [PyStr.drop]; auto.
  cbn [has_char] in H. apply orb_false_iff in H as [_ H]. now apply IH.
Qed.

Lemma has_char_replace_char (c old new : ascii) (s : string) :
  Ascii.eqb new c = false -> has_char c s = false ->
  has_char c (PyStr.replace_char old new s) = false.
Proof.
  intros Hnew. induction s as [|a s IH]; [reflexivity|].
  cbn [has_char PyStr.replace_char]. intros H.
  apply orb_false_iff in H as [Ha Hs]. rewrite (IH Hs).
  destruct (Ascii.eqb a old); [now rewrite Hnew|now rewrite Ha].
Qed.

Lemma has_char_expandtabs_from (c : ascii) (tabsize : Z) (s : string) :
  Ascii.eqb PyStr.space c = false ->
  forall col, has_char c s = false ->
              has_char c (PyStr.expandtabs_from tabsize col s) = false.
Proof.
  intros Hsp. induction s as [|a s IH]; intros col H; [reflexivity|].
  cbn [has_char] in H. apply orb_false_iff in H as [Ha Hs].
  cbn [PyStr.expandtabs_from].
  destruct (Ascii.eqb a PyStr.tab).
  - destruct (0 <? tabsize)%Z; [|now apply IH].
    rewrite has_char_app, (IH _ Hs), orb_false_r.
    induction (Z.to_nat tabsize - col mod Z.to_nat tabsize) as [|k IHk];
      [reflexivity|].
    cbn [PyStr.spaces has_char]. now rewrite Hsp.
  - destruct (Ascii.eqb a PyStr.newline || Ascii.eqb a PyStr.carriage_return);
      cbn [has_char]; now rewrite Ha, IH.
Qed.

Lemma has_char_rel_path (c sep : ascii) (subfolder root file : string) :
  Ascii.eqb sep c = false -> Ascii.eqb "." c = false -> Ascii.eqb "/" c = false ->
  has_char c root = false -> has_char c file = false ->
  has_char c (rel_path sep subfolder root file) = false.
Proof.
  intros Hsep Hdot Hslash Hroot Hfile. unfold rel_path.
  apply has_char_replace_char; [exact Hslash|].
  assert (Hjoin : has_char c (join sep root file) = false).
  { unfold join. destruct (PyStr.startswith _ file); [exact Hfile|].
    destruct (_ || _); rewrite !has_char_app, ?Hroot, ?Hfile; [reflexivity|].
    unfold PyStr.str1. cbn [has_char]. now rewrite Hsep. }
  unfold relpath. destruct (String.eqb _ subfolder).
  - change (has_char c ".") with (Ascii.eqb "." c || false). now rewrite Hdot.
  - destruct (PyStr.startswith _ _); [now apply has_char_drop|].
    destruct (_ && _); [now apply has_char_drop|exact Hjoin].
Qed.

Lemma ends_at_newline_app (body : string) :
  has_char PyStr.newline body = false -> ends_at_newline (body +:+ nl) = true.
Proof.
  induction body as [|a body IH]; [reflexivity|].
  cbn [has_char]. intros H. apply orb_false_iff in H as [Ha Hb].
  rewrite str_app_cons. cbn [ends_at_newline]. rewrite Ha. now apply IH.
Qed.

(** The discovered line of a file is one line when neither the
    subdirectory name nor the names on the way to the file hold a line
    break. *)
Lemma path_line_one_line (sep : ascii) (subfolder : string)
    (settings : NPSettings) (root file : string) :
  no_break (PyStr.str1 sep) = true -> no_break subfolder = true ->
  no_break root = true -> no_break file = true ->
  one_line (path_line sep subfolder settings root file) = true.
Proof.
  unfold no_break. rewrite !andb_true_iff, !negb_true_iff.
  intros [Hs1 Hs2] [Hf1 Hf2] [Hr1 Hr2] [Hn1 Hn2].
  cbn in Hs1, Hs2. rewrite orb_false_r in Hs1, Hs2.
  assert (Hrel1 : has_char PyStr.newline (rel_path sep subfolder root file) = false)
    by (apply has_char_rel_path; auto).
  assert (Hrel2 : has_char PyStr.carriage_return (rel_path sep subfolder root file)
                  = false)
    by (apply has_char_rel_path; auto).
  unfold path_line. fold (rel_path sep subfolder root file).
  set (rel := rel_path sep subfolder root file) in *.
  change (PyStr.str1 PyStr.newline) with nl.
  replace (PyStr.str1 PyStr.tab +:+ subfolder +:+ "/" +:+ rel +:+ nl)
    with ((PyStr.str1 PyStr.tab +:+ subfolder +:+ "/" +:+ rel) +:+ nl)
    by (now rewrite !str_app_assoc).
  set (body := PyStr.str1 PyStr.tab +:+ subfolder +:+ "/" +:+ rel).
  assert (Hb1 : has_char PyStr.newline body = false)
    by (unfold body; rewrite !has_char_app, Hf1, Hrel1; reflexivity).
  assert (Hb2 : has_char PyStr.carriage_return body = false)
    by (unfold body; rewrite !has_char_app, Hf2, Hrel2; reflexivity).
  unfold one_line. destruct (negb (truthy (use_tabs settings))).
  - rewrite expandtabs_from_newline_end.
    rewrite ends_at_newline_app by (now apply has_char_expandtabs_from).
    rewrite has_char_app, has_char_expandtabs_from by auto. reflexivity.
  - rewrite ends_at_newline_app by exact Hb1.
    rewrite has_char_app, Hb2. reflexivity.
Qed.

(** The lines discovered in a tree without line breaks in its names are
    each one line. *)
Lemma discovered_one_line (sep : ascii) (subfolder : string)
    (settings : NPSettings) (w : walk) (new : list string) :
  no_break (PyStr.str1 sep) = true -> no_break subfolder = true ->
  Forall (fun entry : string * string =>
            no_break (fst entry) = true /\ no_break (snd entry) = true)
         (matching_files w) ->
  seek_sources sep subfolder settings w = Ok new ->
  forallb one_line new = true.
Proof.
  intros Hsep Hsub Hall Hnew.
  destruct (seek_sources_returned _ _ _ _ _ Hnew) as (_ & _ & ->).
  apply forallb_forall. intros line Hin.
  apply in_map_iff in Hin as (entry & <- & Hentry).
  rewrite List.Forall_forall in Hall. destruct (Hall entry Hentry) as [Hr Hf].
  now apply path_line_one_line.
Qed.

(** X5: How discovery can end.  It raises [OverflowError] exactly when
    spaces are asked for with a width that is no C [int], whatever the
    files are; it raises the [TypeError] of the call of [append]
    exactly when the width is accepted and no file of the walk ends
    with a recognized extension; it returns exactly when the width is
    accepted and some file does; it raises nothing else. *)
Theorem seek_sources_outcome (sep : ascii) (subfolder : string)
    (settings : NPSettings) (w : walk) :
  (seek_sources sep subfolder settings w = Raise OverflowError
   <-> width_fits settings = false)
  /\ (seek_sources sep subfolder settings w = Raise TypeError_append
      <-> width_fits settings = true /\ matching_files w = [])
  /\ ((exists new, seek_sources sep subfolder settings w = Ok new)
      <-> width_fits settings = true /\ matching_files w <> [])
  /\ (forall e, seek_sources sep subfolder settings w = Raise e ->
                e = OverflowError \/ e = TypeError_append).
Proof.
  assert (Hcases :
            (width_fits settings = false
             /\ seek_sources sep subfolder settings w = Raise OverflowError)
            \/ (width_fits settings = true /\ matching_files w = []
                /\ seek_sources sep subfolder settings w = Raise TypeError_append)
            \/ (width_fits settings = true /\ matching_files w <> []
                /\ exists new, seek_sources sep subfolder settings w = Ok new)).
  { destruct (width_fits settings) eqn:Hfit.
    - right. destruct (matching_files w) as [|entry l] eqn:E.
      + left. rewrite <- E. auto using seek_sources_no_match.
      + right. assert (Hne : matching_files w <> []) by (rewrite E; discriminate).
        rewrite <- E. repeat split; auto. eexists.
        now apply seek_sources_some_match.
    - left. auto using seek_sources_overflow. }
  destruct Hcases as [[Hfit Hr] | [(Hfit & Hm & Hr) | (Hfit & Hm & new & Hr)]];
    rewrite Hr, Hfit; repeat split; intros;
    repeat match goal with
           | H : exists _, _ |- _ => destruct H
           | H : _ /\ _ |- _ => destruct H
           end;
    try congruence; try discriminate; eauto;
    first [left; congruence | right; congruence].
Qed.

(** X6: When discovery returns, it returns one line per matching file: as
    many lines as the walk has files with a recognized extension, and
    at least one. *)
Theorem seek_sources_count (sep : ascii) (subfolder : string)
    (settings : NPSettings) (w : walk) (new : list string) :
  seek_sources sep subfolder settings w = Ok new ->
  length new = length (matching_files w) /\ new <> [].
Proof.
  intros H. destruct (seek_sources_returned _ _ _ _ _ H) as (_ & Hne & ->).
  rewrite length_map. split; [reflexivity|].
  destruct (matching_files w); [contradiction|discriminate].
Qed.

Lemma seek_sources_count_witness :
  length ["  src/a.cpp" +:+ nl; "  src/sub/b.h" +:+ nl]
  = length (matching_files [("src", ["a.cpp"; "notes.txt"]); ("src/sub", ["b.h"])])
  /\ ["  src/a.cpp" +:+ nl; "  src/sub/b.h" +:+ nl] <> [].
Proof.
  apply (seek_sources_count "/" "src" init
           [("src", ["a.cpp"; "notes.txt"]); ("src/sub", ["b.h"])]).
  reflexivity.
Defined.

(** X7: Every line discovered for [src] or [include] ends with a line
    terminator and does not begin with a closing parenthesis, whatever
    the names of the files and whatever the settings: written into a
    region, no such line is taken for the end of a region. *)
Theorem discovered_lines_shape (sep : ascii) (subfolder : string)
    (settings : NPSettings) (w : walk) (new : list string) :
  subfolder = "src" \/ subfolder = "include" ->
  seek_sources sep subfolder settings w = Ok new ->
  Forall (fun line => PyStr.endswith nl line = true /\ is_close line = false) new.
Proof.
  intros Hsub H. destruct (seek_sources_returned _ _ _ _ _ H) as (_ & _ & ->).
  apply List.Forall_forall. intros line Hin.
  apply in_map_iff in Hin as (entry & <- & _). split.
  - apply path_line_newline_end.
  - now apply path_line_not_close.
Qed.

Lemma discovered_lines_shape_witness :
  Forall (fun line => PyStr.endswith nl line = true /\ is_close line = false)
         ["src/)a.c" +:+ nl; "src/sub/)b.c" +:+ nl].
Proof.
  apply (discovered_lines_shape "/" "src"
           {| use_tabs := PyBool false; expanded_spaces := 0 |}
           [("src", [")a.c"]); ("src/sub", [")b.c"])]).
  - left. reflexivity.
  - reflexivity.
Defined.

(** X8: A width that is not positive and is a C [int] (the settings file
    may say [expanded_spaces: 0] or [expanded_spaces: -3]) gives lines
    without any indentation: the tab is dropped. *)
Theorem nonpositive_width_no_indent (sep : ascii) (subfolder : string)
    (settings : NPSettings) (root file : string) :
  truthy (use_tabs settings) = false ->
  (-2147483648 <= expanded_spaces settings <= 0)%Z ->
  has_char PyStr.tab subfolder = false ->
  has_char PyStr.tab (rel_path sep subfolder root file) = false ->
  format_path sep subfolder settings root file
  = Ok (subfolder +:+ "/" +:+ rel_path sep subfolder root file +:+ nl).
Proof.
  intros Ht Hw Hs Hr. rewrite format_path_cases.
  assert (Hfit : width_fits settings = true).
  { unfold width_fits, PyStr.c_int. rewrite Ht. cbn [orb].
    apply andb_true_iff. split; apply Z.leb_le; lia. }
  rewrite Hfit. f_equal. rewrite path_line_discovered by (right; auto).
  unfold discovered_line, indent_unit. rewrite Ht.
  replace (Z.to_nat (expanded_spaces settings)) with 0 by lia. reflexivity.
Qed.

Lemma nonpositive_width_no_indent_witness :
  fst (read (Some ["expanded_spaces: -3" +:+ nl]) fresh)
  = {| self := {| use_tabs := PyBool false; expanded_spaces := -3 |}; stdout := [] |}
  /\ format_path "/" "src" {| use_tabs := PyBool false; expanded_spaces := -3 |}
       "src/sub" "b.h"
     = Ok ("src" +:+ "/" +:+ rel_path "/" "src" "src/sub" "b.h" +:+ nl).
Proof.
  split; [reflexivity|].
  apply (nonpositive_width_no_indent "/" "src"
           {| use_tabs := PyBool false; expanded_spaces := -3 |} "src/sub" "b.h");
    reflexivity || (cbn; lia).
Defined.

End MoreDiscoveryFacts.

(** ** Section locator and rewriter *)

Section MoreUpdateFacts.
Import Settings SettingsVocabulary Init Discovery DiscoveryVocabulary.
Import Update UpdateVocabulary MoreVocabulary.

(** X9: A pass that returns has both boundaries, and its buffer is the old
    one with the lines from the start boundary up to the end boundary
    replaced by the discovered lines: the lines before the start
    boundary and the lines from the end boundary on are the old ones, in
    order.  When the end boundary lies before the start boundary no
    line is removed. *)
Theorem update_pass_frame (w : world) (settings : NPSettings)
    (lines lines' : list string) (sc sc' : scan)
    (section : string) (words : list string) :
  update_pass w settings (lines, sc) (section, words) = Ok (lines', sc') ->
  exists s e new,
    sc' = scan_lines words sc 0 lines
    /\ start_index sc' = Some s /\ end_index sc' = Some e
    /\ seek_sources (os_sep w) section settings (walk_of w section) = Ok new
    /\ lines' = firstn s lines ++ new ++ skipn (Nat.max s e) lines.
Proof.
  unfold update_pass. intros H.
  destruct (seek_sources _ _ _ _) as [new|]; cbn [rbind] in H; [|discriminate].
  destruct (start_index (scan_lines words sc 0 lines)) as [s|] eqn:Hs;
    cbn [load rbind] in H; [|discriminate].
  destruct (end_index (scan_lines words sc 0 lines)) as [e|] eqn:He;
    cbn [load rbind] in H; [|discriminate].
  injection H as <- <-. exists s, e, new. rewrite splice. auto.
Qed.

Lemma update_pass_frame_witness :
  exists s e new,
    {| seek_end := true; start_index := Some 4; end_index := Some 1 |}
    = scan_lines src_words scan_init 0
        ["set ( SRCS" +:+ nl; ")" +:+ nl; "keep" +:+ nl; "# set SRCS" +:+ nl]
    /\ start_index {| seek_end := true; start_index := Some 4; end_index := Some 1 |}
       = Some s
    /\ end_index {| seek_end := true; start_index := Some 4; end_index := Some 1 |}
       = Some e
    /\ seek_sources "/" "src" init [("src", ["a.c"])] = Ok new
    /\ ["set ( SRCS" +:+ nl; ")" +:+ nl; "keep" +:+ nl; "# set SRCS" +:+ nl;
        "  src/a.c" +:+ nl]
       = firstn s ["set ( SRCS" +:+ nl; ")" +:+ nl; "keep" +:+ nl; "# set SRCS" +:+ nl]
         ++ new
         ++ skipn (Nat.max s e)
              ["set ( SRCS" +:+ nl; ")" +:+ nl; "keep" +:+ nl; "# set SRCS" +:+ nl].
Proof.
  apply (update_pass_frame (demo_world [] ["a.c"] ["a.h"]) init
           ["set ( SRCS" +:+ nl; ")" +:+ nl; "keep" +:+ nl; "# set SRCS" +:+ nl]
           _ scan_init _ "src" src_words).
  reflexivity.
Defined.

Lemma scan_lines_snoc (words : list string) (st : scan) (ls : list string)
    (l : string) :
  scan_lines words st 0 (ls ++ [l])
  = scan_line words (scan_lines words st 0 ls) (length ls) l.
Proof. now rewrite scan_lines_app. Qed.

Lemma nth_error_snoc_old (ls : list string) (l : string) (i : nat) (x : string) :
  nth_error ls i = Some x -> nth_error (ls ++ [l]) i = Some x.
Proof.
  intros H. rewrite nth_error_app1; [exact H|].
  apply nth_error_Some. congruence.
Qed.

Lemma nth_error_snoc_new (ls : list string) (l : string) :
  nth_error (ls ++ [l]) (length ls) = Some l.
Proof. now rewrite nth_error_app2, Nat.sub_diag by lia. Qed.

(** X10: The boundaries of a first scan.  After a scan that started with the
    variables unassigned, a start boundary is the index after a marker
    line of the buffer, an end boundary is the index of a line of the
    buffer that begins with a closing parenthesis, there is no end
    boundary without a start boundary, and with the flag clear the
    start boundary does not lie behind the end boundary. *)
Theorem fresh_scan_boundaries (words : list string) (lines : list string) :
  scan_inv words lines (scan_lines words scan_init 0 lines).
Proof.
  induction lines as [|l ls IH] using rev_ind.
  - repeat split; cbn; intros; discriminate.
  - rewrite scan_lines_snoc. set (r := scan_lines words scan_init 0 ls) in *.
    destruct IH as (I1 & I2 & I3 & I4).
    assert (Hlen : length (ls ++ [l]) = S (length ls))
      by (rewrite length_app; cbn; lia).
    assert (K1 : forall s, start_index r = Some s ->
               1 <= s <= S (length ls)
               /\ exists m, nth_error (ls ++ [l]) (s - 1) = Some m
                            /\ is_marker words m = true).
    { intros s Hs. destruct (I1 s Hs) as ([? ?] & m' & Hm' & Hk).
      split; [lia|]. exists m'. split; [now apply nth_error_snoc_old|exact Hk]. }
    assert (K2 : forall e, end_index r = Some e ->
               e < S (length ls)
               /\ (exists c, nth_error (ls ++ [l]) e = Some c /\ is_close c = true)
               /\ start_index r <> None).
    { intros e He. destruct (I2 e He) as (? & (c & Hc' & Hk) & ?).
      split; [lia|]. split; [|assumption].
      exists c. split; [now apply nth_error_snoc_old|exact Hk]. }
    unfold scan_inv, scan_line. rewrite Hlen.
    destruct (seek_end r) eqn:Hseek; cbn [negb].
    + destruct (I4 eq_refl) as (s0 & Hs0 & Hlt).
      destruct (is_close l) eqn:Hc; cbn [seek_end start_index end_index].
      * split; [exact K1|]. split; [|split].
        -- intros e [= <-]. split; [lia|]. split.
           ++ exists l. split; [apply nth_error_snoc_new|exact Hc].
           ++ rewrite Hs0. discriminate.
        -- intros _ s Hs. exists (length ls). split; [reflexivity|].
           destruct (I1 s Hs) as [? ?]. lia.
        -- discriminate.
      * split; [exact K1|]. split; [exact K2|]. split.
        -- rewrite Hseek. discriminate.
        -- intros _. exists s0. split; [exact Hs0|exact Hlt].
    + destruct (is_marker words l) eqn:Hmark; cbn [seek_end start_index end_index].
      * split; [|split; [|split]].
        -- intros s [= <-]. split; [lia|]. exists l.
           replace (length ls + 1 - 1) with (length ls) by lia.
           split; [apply nth_error_snoc_new|exact Hmark].
        -- intros e He. destruct (K2 e He) as (? & ? & _).
           split; [assumption|]. split; [assumption|discriminate].
        -- discriminate.
        -- intros _. exists (length ls + 1). split; [reflexivity|].
           intros e He. destruct (I2 e He) as [? ?]. lia.
      * split; [exact K1|]. split; [exact K2|]. split.
        -- intros _ s Hs. exact (I3 eq_refl s Hs).
        -- rewrite Hseek. discriminate.
Qed.

Lemma read_lines_raises_value_error (lines : list string) :
  forall (index : nat) (s s' : rstate) (e : exn),
    read_lines index lines s = (s', Raise e) ->
    (exists v, e = ValueError_truth v) \/ (exists v, e = ValueError_int v).
Proof.
  induction lines as [|l lines IH]; intros index s s' e H; cbn [read_lines] in H.
  - discriminate.
  - unfold se_bind in H.
    pose proof (read_line_cases index l s) as Hl.
    destruct (value_error l) as [e0|] eqn:E.
    + rewrite Hl in H. injection H as _ <-.
      destruct (value_error_carries_value l e0 E) as (k & v & _ & [-> | ->]); eauto.
    + destruct Hl as [s1 Hl]. rewrite Hl in H. eapply IH; eauto.
Qed.

Lemma update_pass_raises (w : world) (settings : NPSettings)
    (st : list string * scan) (entry : string * list string) (e : exn) :
  update_pass w settings st entry = Raise e ->
  e = OverflowError \/ e = TypeError_append
  \/ e = UnboundLocalError "start_index" \/ e = UnboundLocalError "end_index".
Proof.
  destruct st as [lines sc], entry as [section words]. unfold update_pass.
  destruct (seek_sources _ _ _ _) as [new|e0] eqn:Hnew; cbn [rbind].
  - destruct (start_index _); cbn [load rbind]; [|intros [= <-]; auto].
    destruct (end_index _); cbn [load rbind]; [discriminate|intros [= <-]; auto].
  - intros [= <-].
    destruct (width_fits settings) eqn:Hfit.
    + right. left. destruct (matching_files (walk_of w section)) eqn:E.
      * rewrite seek_sources_no_match in Hnew by assumption. congruence.
      * rewrite seek_sources_some_match in Hnew
          by (rewrite ?E; auto; discriminate).
        discriminate.
    + left. rewrite seek_sources_overflow in Hnew by exact Hfit. congruence.
Qed.

Lemma update_passes_raises (w : world) (settings : NPSettings)
    (entries : list (string * list string)) :
  forall (st : list string * scan) (e : exn),
    update_passes w settings st entries = Raise e ->
    e = OverflowError \/ e = TypeError_append
    \/ e = UnboundLocalError "start_index" \/ e = UnboundLocalError "end_index".
Proof.
  induction entries as [|entry rest IH]; intros st e H; cbn [update_passes] in H.
  - discriminate.
  - destruct (update_pass w settings st entry) as [st'|e0] eqn:Hp; cbn [rbind] in H.
    + eapply IH; eauto.
    + injection H as <-. eapply update_pass_raises; eauto.
Qed.

Lemma read_np_raises (w : world) (s s' : rstate) (e : exn) :
  read (np_file w) s = (s', Raise e) ->
  (exists v, e = ValueError_truth v) \/ (exists v, e = ValueError_int v).
Proof.
  destruct (np_file w) as [lines|]; cbn [read]; [|discriminate].
  apply read_lines_raises_value_error.
Qed.

(** X11: How the update can end.  When it raises, nothing at all is
    written, and the exception is the [ValueError] of a malformed
    setting, the [FileNotFoundError] of a missing [CMakeLists.txt], the
    [IsADirectoryError] of a directory of that name, the
    [OverflowError] of a width that is no C [int], the [TypeError] of a
    discovery that found nothing, or the [UnboundLocalError] of a
    boundary that was never assigned.  When it returns,
    [CMakeLists.txt] was a file that could be read and is one. *)
Theorem update_outcomes (w w' : world) (printed_lines : list printed)
    (r : result unit) :
  update_cmakelist_sources w = (w', printed_lines, r) ->
  match r with
  | Raise e => w' = w /\ update_exception e
  | Ok _ => cmake_file w <> None /\ cmake_file w' <> None
  end.
Proof.
  unfold update_cmakelist_sources, update_exception.
  destruct (read (np_file w) _) as [rs [[]|e0]] eqn:Hread.
  - unfold cmake_file at 1. destruct (open_cmake w) as [lines|e1] eqn:Hfile.
    + destruct (update_passes _ _ _ _) as [[lines' sc]|e2] eqn:Hp.
      * intros [= <- _ <-]. split; [discriminate|].
        unfold cmake_file, open_cmake, write_cmake. cbn [files].
        rewrite lookup_insert_eq. discriminate.
      * intros [= <- _ <-]. split; [reflexivity|].
        destruct (update_passes_raises _ _ _ _ _ Hp) as [-> | [-> | [-> | ->]]];
          auto 10.
    + intros [= <- _ <-]. split; [reflexivity|].
      unfold open_cmake in Hfile.
      destruct (files w !! "CMakeLists.txt") as [[|text]|];
        [| discriminate |]; injection Hfile as <-; auto 10.
  - intros [= <- _ <-]. split; [reflexivity|].
    destruct (read_np_raises _ _ _ _ Hread) as [H | H]; auto.
Qed.

Lemma update_outcomes_witness :
  let w := demo_world ["set ( SRCS" +:+ nl; ")" +:+ nl] [] ["a.h"] in
  w = w /\ update_exception TypeError_append.
Proof.
  intros w.
  apply (update_outcomes w w [] (Raise TypeError_append)).
  reflexivity.
Defined.

(** X12: A malformed setting stops the update before it looks at
    [CMakeLists.txt]: it raises the [ValueError] of the setting and
    writes nothing, whether the build file is there, has its regions,
    or not. *)
Theorem update_stops_at_malformed_setting (w : world) (lines : list string) :
  np_file w = Some lines ->
  existsb malformed_value lines = true ->
  exists printed_lines e,
    update_cmakelist_sources w = (w, printed_lines, Raise e)
    /\ ((exists v, e = ValueError_truth v) \/ (exists v, e = ValueError_int v)).
Proof.
  intros Hnp Hbad. unfold update_cmakelist_sources. rewrite Hnp.
  destruct (first_malformed lines Hbad) as (pre & bad & rest & e & -> & Hpre & Hb).
  destruct (read_lines_ok pre 0 {| self := init; stdout := [] |} Hpre) as [s' Hs'].
  cbn [read]. rewrite (read_lines_stops pre 0 bad rest e _ s' Hs' Hb).
  exists (stdout s'), e. split; [reflexivity|].
  destruct (value_error_carries_value bad e Hb) as (k & v & _ & [-> | ->]); eauto.
Qed.

Lemma update_stops_at_malformed_setting_witness :
  let w := {| os_sep := "/";
              files := <[".np" := NFile ("expanded_spaces: two" +:+ nl)]> ∅;
              walk_of := fun _ => [] |} in
  exists printed_lines e,
    update_cmakelist_sources w = (w, printed_lines, Raise e)
    /\ ((exists v, e = ValueError_truth v) \/ (exists v, e = ValueError_int v)).
Proof.
  intros w.
  apply (update_stops_at_malformed_setting w ["expanded_spaces: two" +:+ nl]);
    reflexivity.
Defined.

(** The settings load without error exactly when no line of the
    settings file has a malformed value. *)
Lemma read_np_ok (w : world) :
  (exists rs, read (np_file w) {| self := init; stdout := [] |} = (rs, Ok tt))
  <-> (forall lines, np_file w = Some lines ->
                     existsb malformed_value lines = false).
Proof.
  split.
  - intros [rs Hread] lines Hnp.
    destruct (existsb malformed_value lines) eqn:E; [|reflexivity].
    rewrite Hnp in Hread. cbn [read] in Hread.
    destruct (first_malformed lines E) as (pre & bad & rest & e & -> & Hpre & Hb).
    destruct (read_lines_ok pre 0 {| self := init; stdout := [] |} Hpre)
      as [s' Hs'].
    rewrite (read_lines_stops pre 0 bad rest e _ s' Hs' Hb) in Hread.
    discriminate.
  - intros Hnp. destruct (np_file w) as [lines|] eqn:E.
    + cbn [read]. apply read_lines_ok, no_malformed_value. now apply Hnp.
    + eexists. reflexivity.
Qed.

(** X13: The update raises [FileNotFoundError] exactly when the settings
    load without error and there is no [CMakeLists.txt]. *)
Theorem update_file_not_found (w : world) :
  snd (update_cmakelist_sources w) = Raise (FileNotFoundError "CMakeLists.txt")
  <-> files w !! "CMakeLists.txt" = None
      /\ (forall lines, np_file w = Some lines ->
                        existsb malformed_value lines = false).
Proof.
  rewrite <- read_np_ok. unfold update_cmakelist_sources. split.
  - destruct (read (np_file w) _) as [rs [[]|e0]] eqn:Hread.
    + unfold open_cmake.
      destruct (files w !! "CMakeLists.txt") as [[|text]|] eqn:Hfile;
        cbn [snd]; [discriminate| |eauto].
      destruct (update_passes _ _ _ _) as [[lines' sc]|e1] eqn:Hp;
        cbn [snd]; [discriminate|].
      intros [= ->].
      destruct (update_passes_raises _ _ _ _ _ Hp) as [? | [? | [? | ?]]];
        discriminate.
    + cbn [snd]. intros [= ->].
      destruct (read_np_raises _ _ _ _ Hread) as [[v H] | [v H]]; discriminate.
  - intros [Hfile [rs Hread]]. rewrite Hread. unfold open_cmake.
    now rewrite Hfile.
Qed.


(** A file with [\r\n] line ends and a [\r] by itself. *)
Example readlines_dos :
  let cr := PyStr.str1 PyStr.carriage_return in
  PyStr.readlines ("a" +:+ cr +:+ nl +:+ "b" +:+ cr +:+ "c" +:+ nl +:+ "d")
  = ["a" +:+ nl; "b" +:+ nl; "c" +:+ nl; "d"].
Proof. reflexivity. Qed.

End MoreUpdateFacts.

(** ** Project initializer *)

Section MoreInitFacts.
Import Settings Init DiscoveryVocabulary MoreVocabulary.

Lemma contains_slash_app (p q : string) :
  PyStr.contains "/" (p +:+ String "/" q) = true.
Proof.
  induction p as [|c p IH].
  - destruct q; reflexivity.
  - rewrite str_app_cons. cbn [PyStr.contains]. rewrite IH. apply orb_true_r.
Qed.

(** The directory of [p/q] is [p] when [q] has no separator. *)
Lemma parent_dir_app (p q : string) :
  PyStr.contains "/" q = false -> parent_dir (p +:+ String "/" q) = p.
Proof.
  intros Hq. induction p as [|c p IH].
  - change (parent_dir (String "/" q) = EmptyString). cbn [parent_dir]. now rewrite Hq.
  - rewrite str_app_cons. cbn [parent_dir]. now rewrite contains_slash_app, IH.
Qed.

Lemma str_app_neq_self (p q : string) : q <> EmptyString -> p <> p +:+ q.
Proof.
  intros Hq E. apply (f_equal String.length) in E.
  rewrite str_length_app in E. destruct q; [congruence|cbn in E; lia].
Qed.

Lemma str_app_inv_head (p a b : string) : p +:+ a = p +:+ b -> a = b.
Proof.
  induction p as [|c p IH]; [auto|].
  rewrite !str_app_cons. intros [= E]. auto.
Qed.

(** The entry [path/child] is looked up in its directory [path], which
    is there. *)
Lemma check_parent_child (m : gmap string node) (path child : string) :
  PyStr.contains "/" child = false ->
  m !! path = Some NDir ->
  check_parent m (path +:+ String "/" child) = Ok tt.
Proof.
  intros Hc Hp. unfold check_parent. rewrite parent_dir_app by exact Hc.
  destruct (String.eqb path EmptyString); [reflexivity|]. now rewrite Hp.
Qed.

Lemma make_project_folder_fresh_aux (s : istate) (path : string) :
  fresh_target (fs s) path ->
  check_parent (fs s) path = Ok tt ->
  make_project_folder path s
  = ({| fs := with_project_folder (fs s) path; out := out s |}, Ok true).
Proof.
  intros (Hp & Hsrc & Hinc) Hparent.
  unfold make_project_folder, exists_path. rewrite Hp.
  unfold se_bind, mkdir at 1, exists_path. cbn [fs out]. rewrite Hparent, Hp.
  unfold mkdir at 1, exists_path. cbn [fs out].
  rewrite (check_parent_child _ path "src") by (reflexivity || apply lookup_insert_eq).
  rewrite lookup_insert_ne by (apply str_app_neq_self; discriminate). rewrite Hsrc.
  unfold mkdir, exists_path. cbn [fs out].
  rewrite (check_parent_child _ path "include");
    [|reflexivity|
     rewrite lookup_insert_ne by (apply not_eq_sym, str_app_neq_self; discriminate);
     apply lookup_insert_eq].
  rewrite lookup_insert_ne
    by (intros E; apply str_app_inv_head in E; discriminate).
  rewrite lookup_insert_ne by (apply str_app_neq_self; discriminate). rewrite Hinc.
  reflexivity.
Qed.

(** X15: On a plain path where nothing is found, in a directory that
    exists, [make_project_folder] creates the directory and its [src]
    and [include], nothing else, prints nothing and returns [True]. *)
Theorem make_project_folder_fresh (s : istate) (path : string) :
  plain_path path = true ->
  fresh_target (fs s) path ->
  check_parent (fs s) path = Ok tt ->
  make_project_folder path s
  = ({| fs := with_project_folder (fs s) path; out := out s |}, Ok true).
Proof.
  intros _ Hfresh Hparent. destruct Hfresh as (Hp & Hsrc & Hinc).
  rewrite (make_project_folder_fresh_aux s path); [reflexivity| |exact Hparent].
  repeat split; assumption.
Qed.

Lemma make_project_folder_fresh_witness :
  make_project_folder "work/demo" {| fs := <["work" := NDir]> ∅; out := [] |}
  = ({| fs := with_project_folder (<["work" := NDir]> ∅) "work/demo"; out := [] |},
     Ok true).
Proof.
  refine (make_project_folder_fresh
            {| fs := <["work" := NDir]> ∅; out := [] |} "work/demo" _ _ _).
  - reflexivity.
  - repeat split.
  - reflexivity.
Defined.

(** X16: On a fresh target with a plain path [create_project] creates
    the three directories and the build file, whose text is the
    template with the name and the languages written in, changes
    nothing else, and prints where the project is. *)
Theorem create_project_fresh_target (s : istate) (name : string)
    (filepath : option string) (languages : string) :
  let path := match filepath with None => name | Some fp => fp end in
  plain_path path = true ->
  fresh_target (fs s) path ->
  check_parent (fs s) path = Ok tt ->
  fs s !! (path +:+ "/CMakeLists.txt") = None ->
  create_project name filepath languages s
  = ({| fs := <[path +:+ "/CMakeLists.txt" := NFile (cmake_project name languages)]>
                (with_project_folder (fs s) path);
        out := out s ++ [Print ("Done! Use `cd " +:+ path +:+ "` to navigate to "
                                +:+ name +:+ ".")] |},
     Ok tt).
Proof.
  intros path _ Hfresh Hparent Hfile. unfold create_project. fold path.
  unfold se_bind at 1. rewrite (make_project_folder_fresh_aux s path Hfresh Hparent).
  unfold se_bind, write_file. cbn [fs out].
  assert (Hdir : with_project_folder (fs s) path !! path = Some NDir).
  { unfold with_project_folder.
    rewrite !lookup_insert_ne by (apply not_eq_sym, str_app_neq_self; discriminate).
    apply lookup_insert_eq. }
  rewrite (check_parent_child _ path "CMakeLists.txt") by (reflexivity || exact Hdir).
  assert (Hnone : with_project_folder (fs s) path !! (path +:+ "/CMakeLists.txt") = None).
  { unfold with_project_folder.
    rewrite !lookup_insert_ne
      by (first [ intros E; apply str_app_inv_head in E; discriminate
                | apply str_app_neq_self; discriminate ]).
    exact Hfile. }
  rewrite Hnone. reflexivity.
Qed.

Lemma create_project_fresh_target_witness :
  create_project "demo" (Some "work/demo") "CXX"
    {| fs := <["work" := NDir]> ∅; out := [] |}
  = ({| fs := <["work/demo" +:+ "/CMakeLists.txt" := NFile (cmake_project "demo" "CXX")]>
                (with_project_folder (<["work" := NDir]> ∅) "work/demo");
        out := [] ++ [Print ("Done! Use `cd " +:+ "work/demo" +:+ "` to navigate to "
                             +:+ "demo" +:+ ".")] |},
     Ok tt).
Proof.
  refine (create_project_fresh_target
            {| fs := <["work" := NDir]> ∅; out := [] |} "demo" (Some "work/demo") "CXX"
            _ _ _ _).
  - reflexivity.
  - repeat split.
  - reflexivity.
  - reflexivity.
Defined.

(** X17: On a target that is an existing directory [create_project] prints
    that the path exists and goes on: it writes the build file into the
    directory, over any build file that is there, leaves everything
    else as it is, and prints where the project is. *)
Theorem create_project_existing_directory (s : istate) (name : string)
    (filepath : option string) (languages : string) :
  let path := match filepath with None => name | Some fp => fp end in
  fs s !! path = Some NDir ->
  fs s !! (path +:+ "/CMakeLists.txt") <> Some NDir ->
  create_project name filepath languages s
  = ({| fs := <[path +:+ "/CMakeLists.txt" := NFile (cmake_project name languages)]> (fs s);
        out := out s ++ [Print "File path already exists, try again. :D"]
                     ++ [Print ("Done! Use `cd " +:+ path +:+ "` to navigate to "
                                +:+ name +:+ ".")] |},
     Ok tt).
Proof.
  intros path Hdir Hfile. unfold create_project. fold path.
  unfold se_bind at 1. unfold make_project_folder, exists_path. rewrite Hdir.
  unfold se_bind, print, se_modify, se_ret, write_file. cbn [fs out].
  rewrite (check_parent_child _ path "CMakeLists.txt") by (reflexivity || exact Hdir).
  destruct (fs s !! (path +:+ "/CMakeLists.txt")) as [[|c]|]; [contradiction| |];
    cbn [fs out]; now rewrite <- List.app_assoc.
Qed.

Lemma create_project_existing_directory_witness :
  let s := {| fs := <["demo" := NDir]> (<["demo/notes.txt" := NFile "keep"]> ∅);
              out := [] |} in
  create_project "demo" None "C/CXX" s
  = ({| fs := <["demo" +:+ "/CMakeLists.txt" := NFile (cmake_project "demo" "C/CXX")]>
                (fs s);
        out := out s ++ [Print "File path already exists, try again. :D"]
                     ++ [Print ("Done! Use `cd " +:+ "demo" +:+ "` to navigate to "
                                +:+ "demo" +:+ ".")] |},
     Ok tt).
Proof.
  intros s.
  refine (create_project_existing_directory s "demo" None "C/CXX" _ _).
  - reflexivity.
  - vm_compute. discriminate.
Defined.

(** X18: On a target that is an existing regular file [create_project]
    prints that the path exists and then fails to open the build file:
    it raises [NotADirectoryError] and changes nothing. *)
Theorem create_project_on_regular_file (s : istate) (name : string)
    (filepath : option string) (languages : string) (content : string) :
  let path := match filepath with None => name | Some fp => fp end in
  path <> EmptyString ->
  fs s !! path = Some (NFile content) ->
  create_project name filepath languages s
  = ({| fs := fs s;
        out := out s ++ [Print "File path already exists, try again. :D"] |},
     Raise (NotADirectoryError (path +:+ "/CMakeLists.txt"))).
Proof.
  intros path Hne Hfile. unfold create_project. fold path.
  unfold se_bind at 1. unfold make_project_folder, exists_path. rewrite Hfile.
  unfold se_bind, print, se_modify, se_ret, write_file, check_parent. cbn [fs out].
  rewrite (parent_dir_app path "CMakeLists.txt") by reflexivity.
  apply String.eqb_neq in Hne. rewrite Hne, Hfile. reflexivity.
Qed.

Lemma create_project_on_regular_file_witness :
  let s := {| fs := <["demo" := NFile "a file named demo"]> ∅; out := [] |} in
  create_project "demo" None "C/CXX" s
  = ({| fs := fs s;
        out := out s ++ [Print "File path already exists, try again. :D"] |},
     Raise (NotADirectoryError ("demo" +:+ "/CMakeLists.txt"))).
Proof.
  intros s.
  refine (create_project_on_regular_file s "demo" None "C/CXX" "a file named demo" _ _).
  - discriminate.
  - reflexivity.
Defined.

Lemma follow_cases (m : gmap string node) (path : string) (dirs : list string) :
  follow m path dirs = Ok tt
  \/ follow m path dirs = Raise (FileNotFoundError path)
  \/ follow m path dirs = Raise (NotADirectoryError path).
Proof.
  induction dirs as [|d dirs IH]; cbn [follow]; [now left|].
  destruct (m !! d) as [[|c]|]; auto.
Qed.

(** On the way to a path no regular file is met: what is missing is
    reported as missing. *)
Lemma follow_no_file (m : gmap string node) (path : string) (dirs : list string) :
  Forall (fun d => forall c, m !! d <> Some (NFile c)) dirs ->
  follow m path dirs <> Raise (NotADirectoryError path).
Proof.
  induction 1 as [|d dirs Hd _ IH]; cbn [follow]; [discriminate|].
  destruct (m !! d) as [[|c]|]; [exact IH| |discriminate].
  now destruct (Hd c).
Qed.

(** The first entry on the way that is no directory is a regular
    file. *)
Lemma follow_file (m : gmap string node) (path : string)
    (above : list string) (d : string) (c : string) (below : list string) :
  Forall (fun x => m !! x = Some NDir) above ->
  m !! d = Some (NFile c) ->
  follow m path (above ++ d :: below) = Raise (NotADirectoryError path).
Proof.
  intros Habove Hd. induction Habove as [|x above Hx _ IH]; cbn [app follow].
  - now rewrite Hd.
  - now rewrite Hx.
Qed.

(** X19: On a target with a plain path whose directory is not there
    [create_project] raises the error of the first [mkdir]: nothing is
    created and nothing is printed.  The error is [FileNotFoundError],
    unless the first entry on the way to the target that is no
    directory is a regular file: then it is [NotADirectoryError]. *)
Theorem create_project_missing_parent (s : istate) (name : string)
    (filepath : option string) (languages : string) :
  let path := match filepath with None => name | Some fp => fp end in
  plain_path path = true ->
  parent_dir path <> EmptyString ->
  fs s !! parent_dir path = None ->
  fs s !! path = None ->
  exists e,
    create_project name filepath languages s = (s, Raise e)
    /\ (e = FileNotFoundError path \/ e = NotADirectoryError path)
    /\ (Forall (fun d => forall c, fs s !! d <> Some (NFile c)) (directories path) ->
        e = FileNotFoundError path)
    /\ (forall above d c below,
          directories path = above ++ d :: below ->
          Forall (fun x => fs s !! x = Some NDir) above ->
          fs s !! d = Some (NFile c) ->
          e = NotADirectoryError path).
Proof.
  intros path _ Hne Hparent Hpath. unfold create_project. fold path.
  unfold se_bind at 1. unfold make_project_folder, exists_path. rewrite Hpath.
  unfold se_bind, mkdir, check_parent.
  apply String.eqb_neq in Hne. rewrite Hne, Hparent.
  destruct (follow_cases (fs s) path (directories path)) as [E | [E | E]].
  - rewrite E. exists (FileNotFoundError path). repeat split; auto.
    intros above d c below Hd Habove Hfile.
    rewrite Hd, (follow_file _ _ above d c below Habove Hfile) in E. discriminate.
  - rewrite E. exists (FileNotFoundError path). repeat split; auto.
    intros above d c below Hd Habove Hfile.
    rewrite Hd, (follow_file _ _ above d c below Habove Hfile) in E. discriminate.
  - rewrite E. exists (NotADirectoryError path). repeat split; auto.
    intros Hall. now destruct (follow_no_file _ path _ Hall).
Qed.

Lemma create_project_missing_parent_witness :
  exists e,
    create_project "demo" (Some "work/demo") "C/CXX" {| fs := ∅; out := [] |}
    = ({| fs := ∅; out := [] |}, Raise e)
    /\ (e = FileNotFoundError "work/demo" \/ e = NotADirectoryError "work/demo")
    /\ (Forall (fun d => forall c, (∅ : gmap string node) !! d <> Some (NFile c))
               (directories "work/demo") ->
        e = FileNotFoundError "work/demo")
    /\ (forall above d c below,
          directories "work/demo" = above ++ d :: below ->
          Forall (fun x => (∅ : gmap string node) !! x = Some NDir) above ->
          (∅ : gmap string node) !! d = Some (NFile c) ->
          e = NotADirectoryError "work/demo").
Proof.
  refine (create_project_missing_parent {| fs := ∅; out := [] |}
            "demo" (Some "work/demo") "C/CXX" _ _ _ _).
  - reflexivity.
  - vm_compute. discriminate.
  - reflexivity.
  - reflexivity.
Defined.

(** A regular file on the way to the target: [work] is a file, so
    [work/space] is not there, and the first [mkdir] fails with
    [NotADirectoryError]. *)
Example create_project_below_a_file :
  create_project "demo" (Some "work/space/demo") "C/CXX"
    {| fs := <["work" := NFile "notes"]> ∅; out := [] |}
  = ({| fs := <["work" := NFile "notes"]> ∅; out := [] |},
     Raise (NotADirectoryError "work/space/demo")).
Proof. reflexivity. Qed.

Lemma prefix_app (old b : string) : String.prefix old (old +:+ b) = true.
Proof.
  induction old as [|c old IH].
  - now destruct b.
  - rewrite str_app_cons. cbn [String.prefix].
    destruct (ascii_dec c c); [exact IH|contradiction].
Qed.

(** A stretch without the first character of [old] is copied. *)
Lemma replace_from_free (c0 : ascii) (old' new a b : string) :
  has_char c0 a = false ->
  PyStr.replace_from (String c0 old') new 0 (a +:+ b)
  = a +:+ PyStr.replace_from (String c0 old') new 0 b.
Proof.
  induction a as [|c a IH]; intros Ha.
  - reflexivity.
  - cbn [has_char] in Ha. apply orb_false_iff in Ha as [Hc Ha].
    rewrite !str_app_cons. cbn [PyStr.replace_from String.prefix].
    destruct (ascii_dec c0 c) as [->|_].
    + now rewrite Ascii.eqb_refl in Hc.
    + now rewrite IH.
Qed.

Lemma replace_from_skip (old new x b : string) :
  PyStr.replace_from old new (String.length x) (x +:+ b)
  = PyStr.replace_from old new 0 b.
Proof.
  induction x as [|c x IH]; [reflexivity|].
  rewrite str_app_cons. cbn [String.length PyStr.replace_from]. exact IH.
Qed.

(** An occurrence of [old] is replaced by [new]. *)
Lemma replace_from_match (c0 : ascii) (old' new b : string) :
  PyStr.replace_from (String c0 old') new 0 (String c0 old' +:+ b)
  = new +:+ PyStr.replace_from (String c0 old') new 0 b.
Proof.
  pose proof (prefix_app (String c0 old') b) as Hp.
  rewrite str_app_cons in *. cbn [PyStr.replace_from]. rewrite Hp.
  cbn [String.length]. rewrite Nat.sub_succ, Nat.sub_0_r.
  now rewrite replace_from_skip.
Qed.

(** X20: For a project name without a percent sign, the text of the build
    file is the template with the name in the place of each
    [%project_name%] and the languages in the place of [%languages%]:
    no placeholder is left, whatever the languages are. *)
Theorem cmake_project_text (name languages : string) :
  has_char "%" name = false ->
  cmake_project name languages = template_text name languages.
Proof.
  intros Hname. unfold cmake_project.
  assert (H1 : PyStr.replace "%project_name%" name default_project_template
               = template_text name "%languages%") by reflexivity.
  rewrite H1. unfold PyStr.replace, template_text.
  repeat first [ rewrite replace_from_free by (reflexivity || exact Hname)
               | rewrite replace_from_match ].
  reflexivity.
Qed.

Lemma cmake_project_text_witness :
  cmake_project "demo" "%project_name%" = template_text "demo" "%project_name%".
Proof.
  apply (cmake_project_text "demo" "%project_name%"). reflexivity.
Defined.

End MoreInitFacts.

(** ** The command line *)

Section MoreMainFacts.
Import Settings SettingsVocabulary Init Update UpdateVocabulary.
Import MoreVocabulary Main.






Lemma update_with_file_not_missing (w : world) :
  files w !! "CMakeLists.txt" <> None ->
  snd (update_cmakelist_sources w) <> Raise (FileNotFoundError "CMakeLists.txt").
Proof.
  intros Hfile. unfold update_cmakelist_sources.
  destruct (read (np_file w) _) as [rs [[]|e0]] eqn:Hread.
  - unfold open_cmake.
    destruct (files w !! "CMakeLists.txt") as [[|text]|];
      cbn [snd]; [discriminate| |contradiction].
    destruct (update_passes _ _ _ _) as [[lines' sc]|e1] eqn:Hp; cbn [snd];
      [discriminate|].
    intros [= ->].
    destruct (update_passes_raises _ _ _ _ _ Hp) as [? | [? | [? | ?]]];
      discriminate.
  - cbn [snd]. intros [= ->].
    destruct (read_np_raises _ _ _ _ Hread) as [[v H] | [v H]]; discriminate.
Qed.

(** X22: With [-u], [main] never lets the update run into a missing
    [CMakeLists.txt]: without an entry of that name it prints that the
    directory has none and changes nothing, with one it runs the
    update, and in no case does it end with the [FileNotFoundError] of
    that file. *)
Theorem main_update_guard (a : args) (s : mstate) :
  update a = true ->
  (files (env s) !! "CMakeLists.txt" = None ->
   main a s
   = ({| env := env s;
         console := console s ++
           [Said (Print "Current directory does not have a CMakeLists.txt")] |},
      Ok tt))
  /\ (files (env s) !! "CMakeLists.txt" <> None -> main a s = call_update s)
  /\ snd (main a s) <> Raise (FileNotFoundError "CMakeLists.txt").
Proof.
  intros Hu. unfold main. rewrite Hu. unfold exists_path.
  destruct (files (env s) !! "CMakeLists.txt") as [entry|] eqn:Hfile.
  - split; [discriminate|]. split; [reflexivity|].
    assert (Hnot : files (env s) !! "CMakeLists.txt" <> None) by congruence.
    pose proof (update_with_file_not_missing (env s) Hnot) as H.
    unfold call_update.
    destruct (update_cmakelist_sources (env s)) as [[w out] r]. exact H.
  - split; [reflexivity|]. split; [congruence|discriminate].
Qed.

Lemma main_update_guard_witness :
  let a := {| name := Some "demo"; update := true; filepath := None;
              language := None |} in
  let s := {| env := {| os_sep := "/"; files := <["src" := NDir]> ∅;
                        walk_of := fun _ => [] |};
              console := [] |} in
  (files (env s) !! "CMakeLists.txt" = None ->
   main a s
   = ({| env := env s;
         console := console s ++
           [Said (Print "Current directory does not have a CMakeLists.txt")] |},
      Ok tt))
  /\ (files (env s) !! "CMakeLists.txt" <> None -> main a s = call_update s)
  /\ snd (main a s) <> Raise (FileNotFoundError "CMakeLists.txt").
Proof.
  intros a s. apply (main_update_guard a s). reflexivity.
Defined.

(** A directory named [CMakeLists.txt] passes the test of [main]; the
    update then fails to open it. *)
Example main_update_on_directory :
  let a := {| name := None; update := true; filepath := None; language := None |} in
  let s := {| env := {| os_sep := "/"; files := <["CMakeLists.txt" := NDir]> ∅;
                        walk_of := fun _ => [] |};
              console := [] |} in
  main a s = (s, Raise (IsADirectoryError "CMakeLists.txt")).
Proof. reflexivity. Qed.

End MoreMainFacts.
